(** * Output definitions of deepmd-kit ([deepmd/dpmodel/output_def.py])

    A shallow embedding of the output-schema module: the shape checks,
    the [OutputVariableDef] constructor with its flag invariants, the
    bit-flag category algebra, the derivation rules ([do_reduce],
    [do_derivative], [do_mask]), [FittingOutputDef], [ModelOutputDef]
    and the output-checking wrapper, followed by the properties proved
    about them.

    Python integers are unbounded, so they are [Z]; [|] and [&] are
    [Z.lor] and [Z.land].  A Python [dict] keeps insertion order and
    the loops below iterate in that order (which decides the exception
    that surfaces first), so a dict is an association list with
    in-place update.  Exceptions are an explicit error type. *)

From Stdlib Require Import ZArith String Ascii Bool Lia List.
Import ListNotations.

Open Scope string_scope.
Open Scope Z_scope.

(** ** Operations and categories (the two [IntEnum]s) *)

Module OutputVariableOperation.
Inductive t : Set :=
| _NONE
| REDU
| DERV_R
| DERV_C
| _SEC_DERV_R
| MAG.

Definition value (op : t) : Z :=
  match op with
  | _NONE => 0
  | REDU => 1
  | DERV_R => 2
  | DERV_C => 4
  | _SEC_DERV_R => 8
  | MAG => 16
  end.
End OutputVariableOperation.

Module OutputVariableCategory.
Import OutputVariableOperation.

Inductive t : Set :=
| OUT
| REDU
| DERV_R
| DERV_C
| DERV_C_REDU
| DERV_R_DERV_R
| DERV_R_MAG
| DERV_C_MAG.

Definition value (c : t) : Z :=
  match c with
  | OUT => OutputVariableOperation.value _NONE
  | REDU => OutputVariableOperation.value OutputVariableOperation.REDU
  | DERV_R => OutputVariableOperation.value OutputVariableOperation.DERV_R
  | DERV_C => OutputVariableOperation.value OutputVariableOperation.DERV_C
  | DERV_C_REDU =>
      Z.lor (OutputVariableOperation.value OutputVariableOperation.DERV_C)
            (OutputVariableOperation.value OutputVariableOperation.REDU)
  | DERV_R_DERV_R =>
      Z.lor (OutputVariableOperation.value OutputVariableOperation.DERV_R)
            (OutputVariableOperation.value _SEC_DERV_R)
  | DERV_R_MAG =>
      Z.lor (OutputVariableOperation.value OutputVariableOperation.DERV_R)
            (OutputVariableOperation.value MAG)
  | DERV_C_MAG =>
      Z.lor (OutputVariableOperation.value OutputVariableOperation.DERV_C)
            (OutputVariableOperation.value MAG)
  end.
End OutputVariableCategory.

Abbreviation Op := OutputVariableOperation.t.
Abbreviation op_value := OutputVariableOperation.value.

(** ** Exceptions *)

(** The text of a [ValueError].  Literal messages are kept as they are;
    an f-string is kept as its template together with the values it
    interpolates. *)
Inductive message : Type :=
| Literal (s : string)
    (* "..." *)
| ShapeNotMatching (shape def_shape : list Z)
    (* f"{shape} shape not matching def {def_shape}" *)
| LengthNotMatching (tail def_shape : list Z)
    (* f"{tail} length not matching def {def_shape}" *)
| OperationApplied (op : Op)
    (* f"operation {op} has been applied" *)
| OperationAppliedTwice (op : Op)
    (* f"operation {op} has been applied twice" *)
| OperationNotSupported (op : Op).
    (* f"operation {op} not supported" *)

Inductive exn : Type :=
| ValueError (m : message)
| AssertionError
| IndexError
| KeyError (key : string).

Inductive result (A : Type) : Type :=
| OK (a : A)
| Raise (e : exn).

Arguments OK {A} a.
Arguments Raise {A} e.

Definition bind {A B : Type} (r : result A) (k : A -> result B) : result B :=
  match r with
  | OK a => k a
  | Raise e => Raise e
  end.

Notation "x <- e ;; k" := (bind e (fun x => k))
  (at level 61, e at next level, right associativity).
Notation "e ;;; k" := (bind e (fun _ => k))
  (at level 61, right associativity).

Definition raises {A : Type} (r : result A) : Prop :=
  exists e, r = Raise e.

Definition is_ok {A : Type} (r : result A) : bool :=
  match r with
  | OK _ => true
  | Raise _ => false
  end.

(** A [for] loop whose body may raise: the first exception stops it. *)
Fixpoint foldM {A S : Type} (f : S -> A -> result S) (l : list A) (s : S)
  : result S :=
  match l with
  | [] => OK s
  | x :: l' => s' <- f s x ;; foldM f l' s'
  end.

Fixpoint forM_ {A : Type} (f : A -> result unit) (l : list A) : result unit :=
  match l with
  | [] => OK tt
  | x :: l' => f x ;;; forM_ f l'
  end.

(** ** Python dicts with string keys *)

Module PyDict.
Section Dict.
Context {V : Type}.

Definition t : Type := list (string * V).

Definition empty : t := [].

Fixpoint get (d : t) (k : string) : option V :=
  match d with
  | [] => None
  | (k', v) :: d' => if String.eqb k' k then Some v else get d' k
  end.

(** [d[k] = v]: an existing key keeps its place, a new one goes last. *)
Fixpoint set (d : t) (k : string) (v : V) : t :=
  match d with
  | [] => [(k, v)]
  | (k', v') :: d' =>
      if String.eqb k' k then (k', v) :: d' else (k', v') :: set d' k v
  end.

Definition keys (d : t) : list string := map fst d.

Definition items (d : t) : list (string * V) := d.

(** [d[k]] as an expression. *)
Definition getitem (d : t) (k : string) : result V :=
  match get d k with
  | Some v => OK v
  | None => Raise (KeyError k)
  end.

Definition set_all (d : t) (es : list (string * V)) : t :=
  fold_left (fun acc e => set acc (fst e) (snd e)) es d.

(** [d.update(e)] *)
Definition update (d e : t) : t := set_all d (items e).

(** Keys of a dict are pairwise distinct. *)
Definition wf (d : t) : Prop := NoDup (keys d).
End Dict.
Arguments t V : clear implicits.
End PyDict.

(** ** Shape checks *)

(** A tensor is seen through its [.shape] only. *)
Record ndarray : Type := { ndshape : list Z }.

Definition list_Z_eqb (a b : list Z) : bool :=
  if list_eq_dec Z.eq_dec a b then true else false.

(** [l[-1]] *)
Definition last_item (l : list Z) : result Z :=
  match l with
  | [] => Raise IndexError
  | _ => OK (last l 0)
  end.

Definition check_shape (shape def_shape : list Z) : result unit :=
  if negb (Nat.eqb (length shape) (length def_shape)) then Raise AssertionError
  else
    l <- last_item def_shape ;;
    if l =? -1 then
      if negb (list_Z_eqb (removelast shape) (removelast def_shape))
      then Raise (ValueError
                    (ShapeNotMatching (removelast shape) (removelast def_shape)))
      else OK tt
    else
      if negb (list_Z_eqb shape def_shape)
      then Raise (ValueError (ShapeNotMatching shape def_shape))
      else OK tt.

(** ** [OutputVariableDef] *)

Module OutputVariableDef.
Record t : Type := {
  name : string;
  shape : list Z;
  output_size : Z;
  atomic : bool;
  reducible : bool;
  r_differentiable : bool;
  c_differentiable : bool;
  intensive : bool;
  category : Z;
  r_hessian : bool;
  magnetic : bool
}.

(** [for i in range(len_shape): output_size *= shape[i]] *)
Definition size_loop (shape : list Z) : Z :=
  fold_left (fun acc i => acc * nth i shape 0)
            (seq 0 (length shape)) 1.

(** The constructor, with every keyword argument spelled out, in the
    order of the signature. *)
Definition init (name : string) (shape : list Z)
    (reducible r_differentiable c_differentiable atomic : bool)
    (category : Z) (r_hessian magnetic intensive : bool) : result t :=
  let output_size := size_loop shape in
  if c_differentiable && negb r_differentiable
  then Raise (ValueError (Literal "c differentiable requires r_differentiable"))
  else if reducible && negb atomic
  then Raise (ValueError (Literal "a reducible variable should be atomic"))
  else if intensive && negb reducible
  then Raise (ValueError (Literal "an intensive variable should be reducible"))
  else if r_hessian && negb reducible
  then Raise (ValueError (Literal "only reducible variable can calculate hessian"))
  else if r_hessian && negb r_differentiable
  then Raise (ValueError
                (Literal "only r_differentiable variable can calculate hessian"))
  else OK {| name := name;
             shape := shape;
             output_size := output_size;
             atomic := atomic;
             reducible := reducible;
             r_differentiable := r_differentiable;
             c_differentiable := c_differentiable;
             intensive := intensive;
             category := category;
             r_hessian := r_hessian;
             magnetic := magnetic |}.

Definition size (v : t) : Z := output_size v.

(** [l.pop(i)] for an index [i] in range: the list without entry [i]. *)
Definition pop_at (i : nat) (l : list Z) : list Z :=
  (firstn i l ++ skipn (S i) l)%list.

(** The position a Python index [dim] with [-len <= dim < len] denotes. *)
Definition py_index (len : nat) (dim : Z) : nat :=
  Z.to_nat (if dim <? 0 then dim + Z.of_nat len else dim).

(** [squeeze] changes [self.shape] in place and nothing else; the
    updated object is returned. *)
Definition squeeze (self : t) (dim : Z) : t :=
  let len := length (shape self) in
  if (- Z.of_nat len <=? dim) && (dim <? Z.of_nat len)
     && (nth (py_index len dim) (shape self) 0 =? 1)
  then {| name := name self;
          shape := pop_at (py_index len dim) (shape self);
          output_size := output_size self;
          atomic := atomic self;
          reducible := reducible self;
          r_differentiable := r_differentiable self;
          c_differentiable := c_differentiable self;
          intensive := intensive self;
          category := category self;
          r_hessian := r_hessian self;
          magnetic := magnetic self |}
  else self.
End OutputVariableDef.

Abbreviation VarDef := OutputVariableDef.t.
Import OutputVariableDef.

Definition check_var (var : ndarray) (var_def : VarDef) : result unit :=
  if atomic var_def then
    if negb (Nat.eqb (length (ndshape var)) (length (shape var_def) + 2))
    then Raise (ValueError
                  (LengthNotMatching (skipn 2 (ndshape var)) (shape var_def)))
    else check_shape (skipn 2 (ndshape var)) (shape var_def)
  else
    if negb (Nat.eqb (length (ndshape var)) (length (shape var_def) + 1))
    then Raise (ValueError
                  (LengthNotMatching (skipn 1 (ndshape var)) (shape var_def)))
    else check_shape (skipn 1 (ndshape var)) (shape var_def).

(** ** [FittingOutputDef] *)

Module FittingOutputDef.
Record t : Type := { var_defs : PyDict.t VarDef }.

(** [{vv.name: vv for vv in var_defs}] *)
Definition init (defs : list VarDef) : t :=
  {| var_defs :=
       fold_left (fun d vv => PyDict.set d (name vv) vv) defs PyDict.empty |}.

Definition getitem (self : t) (key : string) : result VarDef :=
  PyDict.getitem (var_defs self) key.

Definition get_data (self : t) : PyDict.t VarDef := var_defs self.

Definition keys (self : t) : list string := PyDict.keys (var_defs self).
End FittingOutputDef.

(** ** Derived names *)

Definition get_reduce_name (name : string) : string := name ++ "_redu".

Definition get_deriv_name (name : string) : string * string :=
  (name ++ "_derv_r", name ++ "_derv_c").

Definition get_deriv_name_mag (name : string) : string * string :=
  (name ++ "_derv_r_mag", name ++ "_derv_c_mag").

Definition get_hessian_name (name : string) : string :=
  name ++ "_derv_r_derv_r".

(** ** The category algebra *)

Definition check_operation_applied (var_def : VarDef) (op : Op) : bool :=
  Z.land (category var_def) (op_value op) =? op_value op.

Definition apply_operation (var_def : VarDef) (op : Op) : result Z :=
  match op with
  | OutputVariableOperation.REDU | OutputVariableOperation.DERV_C =>
      if check_operation_applied var_def op
      then Raise (ValueError (OperationApplied op))
      else OK (Z.lor (category var_def) (op_value op))
  | OutputVariableOperation.DERV_R =>
      if check_operation_applied var_def OutputVariableOperation.DERV_R then
        let op := OutputVariableOperation._SEC_DERV_R in
        if check_operation_applied var_def OutputVariableOperation._SEC_DERV_R
        then Raise (ValueError (OperationAppliedTwice op))
        else OK (Z.lor (category var_def) (op_value op))
      else OK (Z.lor (category var_def) (op_value op))
  | _ => Raise (ValueError (OperationNotSupported op))
  end.

Definition check_deriv (var_def : VarDef) : bool :=
  check_operation_applied var_def OutputVariableOperation.DERV_R
  || check_operation_applied var_def OutputVariableOperation._SEC_DERV_R
  || check_operation_applied var_def OutputVariableOperation.DERV_C.

(** ** Derivation rules *)

Definition do_reduce_step (def_redu : PyDict.t VarDef) (item : string * VarDef)
  : result (PyDict.t VarDef) :=
  let '(kk, vv) := item in
  if reducible vv then
    let rk := get_reduce_name kk in
    c <- apply_operation vv OutputVariableOperation.REDU ;;
    d <- OutputVariableDef.init rk (shape vv) false false false false c
           false false false ;;
    OK (PyDict.set def_redu rk d)
  else OK def_redu.

Definition do_reduce (def_outp_data : PyDict.t VarDef)
  : result (PyDict.t VarDef) :=
  foldM do_reduce_step (PyDict.items def_outp_data) PyDict.empty.

Definition do_mask_step (def_mask : PyDict.t VarDef) (item : string * VarDef)
  : result (PyDict.t VarDef) :=
  let '(kk, vv) := item in
  if magnetic vv then
    d <- OutputVariableDef.init "mask_mag" [1] false false false true
           (OutputVariableCategory.value OutputVariableCategory.OUT)
           false false false ;;
    OK (PyDict.set def_mask "mask_mag" d)
  else OK def_mask.

Definition do_mask (def_outp_data : PyDict.t VarDef)
  : result (PyDict.t VarDef) :=
  d <- OutputVariableDef.init "mask" [1] false false false true
         (OutputVariableCategory.value OutputVariableCategory.OUT)
         false false false ;;
  foldM do_mask_step (PyDict.items def_outp_data)
        (PyDict.set PyDict.empty "mask" d).

(** The part of the loop body of [do_derivative] guarded by
    [if vv.r_differentiable]. *)
Definition derv_r_part (def_derv_r : PyDict.t VarDef) (kk : string)
    (vv : VarDef) : result (PyDict.t VarDef) :=
  let '(rkr, rkc) := get_deriv_name kk in
  let '(rkrm, rkcm) := get_deriv_name_mag kk in
  if r_differentiable vv then
    c <- apply_operation vv OutputVariableOperation.DERV_R ;;
    d <- OutputVariableDef.init rkr (shape vv ++ [3])%list false
           (r_hessian vv
            && (category vv
                =? OutputVariableCategory.value OutputVariableCategory.OUT))
           false true c false false false ;;
    let def_derv_r := PyDict.set def_derv_r rkr d in
    if magnetic vv then
      c <- apply_operation vv OutputVariableOperation.DERV_R ;;
      d <- OutputVariableDef.init rkrm (shape vv ++ [3])%list false
             (r_hessian vv
              && (category vv
                  =? OutputVariableCategory.value OutputVariableCategory.OUT))
             false true c false true false ;;
      OK (PyDict.set def_derv_r rkrm d)
    else OK def_derv_r
  else OK def_derv_r.

(** The part guarded by [if vv.c_differentiable]; it writes the
    magnetic twin into [def_derv_r]. *)
Definition derv_c_part (defs : PyDict.t VarDef * PyDict.t VarDef)
    (kk : string) (vv : VarDef)
  : result (PyDict.t VarDef * PyDict.t VarDef) :=
  let '(def_derv_r, def_derv_c) := defs in
  let '(rkr, rkc) := get_deriv_name kk in
  let '(rkrm, rkcm) := get_deriv_name_mag kk in
  if c_differentiable vv then
    if negb (r_differentiable vv) then Raise AssertionError
    else
      c <- apply_operation vv OutputVariableOperation.DERV_C ;;
      d <- OutputVariableDef.init rkc (shape vv ++ [9])%list true false false
             true c false false false ;;
      let def_derv_c := PyDict.set def_derv_c rkc d in
      if magnetic vv then
        c <- apply_operation vv OutputVariableOperation.DERV_C ;;
        d <- OutputVariableDef.init rkcm (shape vv ++ [9])%list true false
               false true c false true false ;;
        OK (PyDict.set def_derv_r rkcm d, def_derv_c)
      else OK (def_derv_r, def_derv_c)
  else OK (def_derv_r, def_derv_c).

Definition do_derivative_step (defs : PyDict.t VarDef * PyDict.t VarDef)
    (item : string * VarDef) : result (PyDict.t VarDef * PyDict.t VarDef) :=
  let '(kk, vv) := item in
  def_derv_r <- derv_r_part (fst defs) kk vv ;;
  derv_c_part (def_derv_r, snd defs) kk vv.

Definition do_derivative (def_outp_data : PyDict.t VarDef)
  : result (PyDict.t VarDef * PyDict.t VarDef) :=
  foldM do_derivative_step (PyDict.items def_outp_data)
        (PyDict.empty, PyDict.empty).

(** ** [ModelOutputDef] *)

Module ModelOutputDef.
Record t : Type := {
  def_outp : FittingOutputDef.t;
  def_redu : PyDict.t VarDef;
  def_derv_r : PyDict.t VarDef;
  def_derv_c : PyDict.t VarDef;
  def_hess_r : PyDict.t VarDef;
  def_derv_c_redu : PyDict.t VarDef;
  def_mask : PyDict.t VarDef;
  var_defs : PyDict.t VarDef
}.

Definition init (fit_defs : FittingOutputDef.t) : result t :=
  let def_outp := fit_defs in
  def_redu <- do_reduce (FittingOutputDef.get_data def_outp) ;;
  derv <- do_derivative (FittingOutputDef.get_data def_outp) ;;
  let '(def_derv_r, def_derv_c) := derv in
  hess <- do_derivative def_derv_r ;;
  let def_hess_r := fst hess in
  def_derv_c_redu <- do_reduce def_derv_c ;;
  def_mask <- do_mask (FittingOutputDef.get_data def_outp) ;;
  let var_defs :=
    fold_left PyDict.update
      [ FittingOutputDef.get_data def_outp;
        def_redu;
        def_derv_c;
        def_derv_r;
        def_derv_c_redu;
        def_hess_r;
        def_mask ]
      PyDict.empty in
  OK {| def_outp := def_outp;
        def_redu := def_redu;
        def_derv_r := def_derv_r;
        def_derv_c := def_derv_c;
        def_hess_r := def_hess_r;
        def_derv_c_redu := def_derv_c_redu;
        def_mask := def_mask;
        var_defs := var_defs |}.

Definition getitem (self : t) (key : string) : result VarDef :=
  PyDict.getitem (var_defs self) key.

Definition get_data (self : t) : PyDict.t VarDef := var_defs self.

Definition keys (self : t) : list string := PyDict.keys (var_defs self).
Definition keys_outp (self : t) : list string :=
  FittingOutputDef.keys (def_outp self).
Definition keys_redu (self : t) : list string := PyDict.keys (def_redu self).
Definition keys_derv_r (self : t) : list string :=
  PyDict.keys (def_derv_r self).
Definition keys_hess_r (self : t) : list string :=
  PyDict.keys (def_hess_r self).
Definition keys_derv_c (self : t) : list string :=
  PyDict.keys (def_derv_c self).
Definition keys_derv_c_redu (self : t) : list string :=
  PyDict.keys (def_derv_c_redu self).
End ModelOutputDef.

(** ** The output-checking wrappers *)

(** [check_var(ret[k], md[k])]: the tensor is looked up first. *)
Definition check_entry (md : ModelOutputDef.t) (ret : PyDict.t ndarray)
    (k : string) : result unit :=
  var <- PyDict.getitem ret k ;;
  var_def <- ModelOutputDef.getitem md k ;;
  check_var var var_def.

(** Body of the loop of the model wrapper's [__call__]. *)
Definition model_check_key (md : ModelOutputDef.t) (ret : PyDict.t ndarray)
    (kk : string) : result unit :=
  dd <- ModelOutputDef.getitem md kk ;;
  var <- PyDict.getitem ret kk ;;
  check_var var dd ;;;
  (if reducible dd then check_entry md ret (get_reduce_name kk)
   else OK tt) ;;;
  (if r_differentiable dd then check_entry md ret (fst (get_deriv_name kk))
   else OK tt) ;;;
  (if c_differentiable dd then
     if negb (r_differentiable dd) then Raise AssertionError
     else check_entry md ret (snd (get_deriv_name kk))
   else OK tt).

Section Wrappers.
(** The arguments of the wrapped [__call__] and the call itself. *)
Context {Args : Type}.
Variable cls_call : Args -> result (PyDict.t ndarray).

(** [model_check_output(cls).__call__], with [self.md] as cached by
    the wrapper's constructor. *)
Definition model_check_output (md : ModelOutputDef.t) (args : Args)
  : result (PyDict.t ndarray) :=
  ret <- cls_call args ;;
  forM_ (model_check_key md ret) (ModelOutputDef.keys_outp md) ;;;
  OK ret.

(** [fitting_check_output(cls).__call__]. *)
Definition fitting_check_output (md : FittingOutputDef.t) (args : Args)
  : result (PyDict.t ndarray) :=
  ret <- cls_call args ;;
  forM_ (fun kk =>
           dd <- FittingOutputDef.getitem md kk ;;
           var <- PyDict.getitem ret kk ;;
           check_var var dd)
        (FittingOutputDef.keys md) ;;;
  OK ret.
End Wrappers.

(** ** [DeepDOS.output_def] ([deepmd/infer/deep_dos.py]) *)

Module DeepDOS.
Definition output_def : result ModelOutputDef.t :=
  dos <- OutputVariableDef.init "dos" [-1] true false false true
           (OutputVariableCategory.value OutputVariableCategory.OUT)
           false false false ;;
  ModelOutputDef.init (FittingOutputDef.init [dos]).
End DeepDOS.

(** ** [DipoleFittingNet.output_def] ([deepmd/pt/model/task/dipole.py]) *)

Module DipoleFittingNet.
(** The attributes of the net that [output_def] reads. *)
Record t : Type := {
  var_name : string;
  r_differentiable : bool;
  c_differentiable : bool
}.

Definition output_def (self : t) : result FittingOutputDef.t :=
  v <- OutputVariableDef.init (var_name self) [3] true
         (r_differentiable self) (c_differentiable self) true
         (OutputVariableCategory.value OutputVariableCategory.OUT)
         false false false ;;
  OK (FittingOutputDef.init [v]).
End DipoleFittingNet.

(** * Definitions used by the statements *)

(** [prod shape], the product of the entries. *)
Definition prod (l : list Z) : Z := fold_right Z.mul 1 l.

(** The four flag invariants of the constructor, as one test. *)
Definition violated (reducible r_differentiable c_differentiable atomic
                     r_hessian intensive : bool) : bool :=
  (c_differentiable && negb r_differentiable)
  || (reducible && negb atomic)
  || (intensive && negb reducible)
  || (r_hessian && (negb reducible || negb r_differentiable)).

(** Number of leading dimensions [check_var] strips: [[nf, nloc]] for an
    atomic variable, [[nf]] otherwise. *)
Definition leading_dims (var_def : VarDef) : nat :=
  if atomic var_def then 2%nat else 1%nat.

(** The energy of an energy model, as its fitting declares it. *)
Definition energy_def : VarDef :=
  {| name := "energy"; shape := [1]; output_size := 1;
     atomic := true; reducible := true; r_differentiable := true;
     c_differentiable := true; intensive := false; category := 0;
     r_hessian := false; magnetic := false |}.

(** The bit an operation stands for; [_NONE] has none. *)
Definition op_bit (op : Op) : option Z :=
  match op with
  | OutputVariableOperation._NONE => None
  | OutputVariableOperation.REDU => Some 0
  | OutputVariableOperation.DERV_R => Some 1
  | OutputVariableOperation.DERV_C => Some 2
  | OutputVariableOperation._SEC_DERV_R => Some 3
  | OutputVariableOperation.MAG => Some 4
  end.

(** A definition that carries the category [c]. *)
Definition with_category (c : Z) : VarDef :=
  {| name := "x"; shape := [1]; output_size := 1;
     atomic := true; reducible := false; r_differentiable := false;
     c_differentiable := false; intensive := false; category := c;
     r_hessian := false; magnetic := false |}.

(** A derived definition as the constructor builds it inside
    [do_derivative]: atomic, not differentiable w.r.t. the cell, no
    Hessian, not intensive. *)
Definition derv_entry (nm : string) (shp : list Z) (red rd : bool) (cat : Z)
    (mag : bool) : VarDef :=
  {| name := nm; shape := shp; output_size := size_loop shp;
     atomic := true; reducible := red; r_differentiable := rd;
     c_differentiable := false; intensive := false; category := cat;
     r_hessian := false; magnetic := mag |}.

(** The entry [do_derivative] builds under a [_derv_r] name. *)
Definition derv_r_entry (nm : string) (vv : VarDef) (mag : bool) : VarDef :=
  derv_entry nm (shape vv ++ [3])%list false
    (r_hessian vv
     && (category vv =? OutputVariableCategory.value OutputVariableCategory.OUT))
    (Z.lor (category vv)
       (if check_operation_applied vv OutputVariableOperation.DERV_R
        then op_value OutputVariableOperation._SEC_DERV_R
        else op_value OutputVariableOperation.DERV_R))
    mag.

(** The entry [do_derivative] builds under a [_derv_c] name. *)
Definition derv_c_entry (nm : string) (vv : VarDef) (mag : bool) : VarDef :=
  derv_entry nm (shape vv ++ [9])%list true false
    (Z.lor (category vv) (op_value OutputVariableOperation.DERV_C)) mag.

(** Items written to [def_derv_r] under [if vv.r_differentiable]. *)
Definition emits_r1 (item : string * VarDef) : list (string * VarDef) :=
  let '(kk, vv) := item in
  if r_differentiable vv then
    (kk ++ "_derv_r", derv_r_entry (kk ++ "_derv_r") vv false)
      :: (if magnetic vv
          then [(kk ++ "_derv_r_mag",
                 derv_r_entry (kk ++ "_derv_r_mag") vv true)]
          else [])
  else [].

(** Items written to [def_derv_r] under [if vv.c_differentiable]. *)
Definition emits_rc (item : string * VarDef) : list (string * VarDef) :=
  let '(kk, vv) := item in
  if c_differentiable vv && magnetic vv
  then [(kk ++ "_derv_c_mag", derv_c_entry (kk ++ "_derv_c_mag") vv true)]
  else [].

(** All items written to [def_derv_r] for one item, in order. *)
Definition emits_r (item : string * VarDef) : list (string * VarDef) :=
  (emits_r1 item ++ emits_rc item)%list.

(** Items written to [def_derv_c]. *)
Definition emits_c (item : string * VarDef) : list (string * VarDef) :=
  let '(kk, vv) := item in
  if c_differentiable vv
  then [(kk ++ "_derv_c", derv_c_entry (kk ++ "_derv_c") vv false)]
  else [].

(** The loop body of [do_derivative] does not raise on [vv]. *)
Definition derivable (vv : VarDef) : bool :=
  (negb (r_differentiable vv)
   || negb (check_operation_applied vv OutputVariableOperation.DERV_R
            && check_operation_applied vv OutputVariableOperation._SEC_DERV_R))
  && (negb (c_differentiable vv)
      || (r_differentiable vv
          && negb (check_operation_applied vv OutputVariableOperation.DERV_C))).

(** A magnetic energy, as a spin model declares it. *)
Definition spin_energy_def : VarDef :=
  {| name := "energy"; shape := [1]; output_size := 1;
     atomic := true; reducible := true; r_differentiable := true;
     c_differentiable := true; intensive := false; category := 0;
     r_hessian := false; magnetic := true |}.

Definition spin_data : PyDict.t VarDef := [("energy", spin_energy_def)].

Definition spin_derv_r : PyDict.t VarDef :=
  [("energy_derv_r", derv_r_entry "energy_derv_r" spin_energy_def false);
   ("energy_derv_r_mag", derv_r_entry "energy_derv_r_mag" spin_energy_def true);
   ("energy_derv_c_mag", derv_c_entry "energy_derv_c_mag" spin_energy_def true)].

Definition spin_derv_c : PyDict.t VarDef :=
  [("energy_derv_c", derv_c_entry "energy_derv_c" spin_energy_def false)].

(** An energy whose Hessian is requested. *)
Definition hessian_energy_def : VarDef :=
  {| name := "energy"; shape := [1]; output_size := 1;
     atomic := true; reducible := true; r_differentiable := true;
     c_differentiable := true; intensive := false; category := 0;
     r_hessian := true; magnetic := false |}.

Definition hessian_data : PyDict.t VarDef := [("energy", hessian_energy_def)].

Definition hessian_derv_r : PyDict.t VarDef :=
  [("energy_derv_r", derv_r_entry "energy_derv_r" hessian_energy_def false)].

Definition hessian_derv_c : PyDict.t VarDef :=
  [("energy_derv_c", derv_c_entry "energy_derv_c" hessian_energy_def false)].

(** The tensor under [k] is there, [k] is declared, and the tensor
    passes [check_var] against the declaration. *)
Definition checked (md : ModelOutputDef.t) (ret : PyDict.t ndarray)
    (k : string) : Prop :=
  exists var var_def,
    PyDict.get ret k = Some var
    /\ ModelOutputDef.getitem md k = OK var_def
    /\ check_var var var_def = OK tt.

(** A forward pass that forgets the virial of the energy model. *)
Definition forgetful_call (_ : unit) : result (PyDict.t ndarray) :=
  OK [("energy", {| ndshape := [1; 2; 1] |});
      ("energy_redu", {| ndshape := [1; 1] |});
      ("energy_derv_r", {| ndshape := [1; 2; 1; 3] |})].

(** A reducible variable with two wildcard entries in its shape. *)
Definition wildcard_def : VarDef :=
  {| name := "dos"; shape := [-1; 4; -1]; output_size := 4;
     atomic := true; reducible := true; r_differentiable := false;
     c_differentiable := false; intensive := false; category := 0;
     r_hessian := false; magnetic := false |}.

(** The entry [do_reduce] builds under a [_redu] name. *)
Definition redu_entry (nm : string) (vv : VarDef) : VarDef :=
  {| name := nm; shape := shape vv; output_size := size_loop (shape vv);
     atomic := false; reducible := false; r_differentiable := false;
     c_differentiable := false; intensive := false;
     category := Z.lor (category vv) (op_value OutputVariableOperation.REDU);
     r_hessian := false; magnetic := false |}.

(** Items written to [def_redu] for one item. *)
Definition emits_redu (item : string * VarDef) : list (string * VarDef) :=
  let '(kk, vv) := item in
  if reducible vv
  then [(kk ++ "_redu", redu_entry (kk ++ "_redu") vv)]
  else [].

(** The loop body of [do_reduce] does not raise on [vv]. *)
Definition reducible_ok (vv : VarDef) : bool :=
  negb (reducible vv)
  || negb (check_operation_applied vv OutputVariableOperation.REDU).

(** The entries of [do_mask]. *)
Definition mask_entry (nm : string) : VarDef :=
  {| name := nm; shape := [1]; output_size := 1;
     atomic := true; reducible := false; r_differentiable := false;
     c_differentiable := false; intensive := false; category := 0;
     r_hessian := false; magnetic := false |}.

(** [ModelOutputDef] can be built from a base definition [vv]:
    [do_reduce] and [do_derivative] accept it, and so does [do_reduce]
    on its cell derivative. *)
Definition model_ok (vv : VarDef) : bool :=
  reducible_ok vv
  && derivable vv
  && (negb (c_differentiable vv)
      || negb (check_operation_applied vv OutputVariableOperation.REDU)).

(** The names [do_derivative] writes to [def_derv_r] for one item. *)
Definition derv_r_names (item : string * VarDef) : list string :=
  let '(kk, vv) := item in
  let rkr := kk ++ "_derv_r" in
  let rkrm := kk ++ "_derv_r_mag" in
  let rkcm := kk ++ "_derv_c_mag" in
  ((if r_differentiable vv
    then rkr :: (if magnetic vv then [rkrm] else [])
    else [])
   ++ (if c_differentiable vv && magnetic vv then [rkcm] else []))%list.

(** [a] if it is there, otherwise [b]. *)
Definition orelse {A : Type} (a b : option A) : option A :=
  match a with
  | Some x => Some x
  | None => b
  end.

(** A base variable that a fitting declares under the name [mask]. *)
Definition user_mask_def : VarDef :=
  {| name := "mask"; shape := [3]; output_size := 3;
     atomic := true; reducible := true; r_differentiable := false;
     c_differentiable := false; intensive := false; category := 0;
     r_hessian := false; magnetic := false |}.

(** The names of the first derivatives of [k]: coordinate derivative,
    its magnetic twin, and the magnetic twin of the cell derivative. *)
Definition first_derivative_names (k : string) : list string :=
  [fst (get_deriv_name k); fst (get_deriv_name_mag k);
   snd (get_deriv_name_mag k)].

(** The keys the second pass of [do_derivative] yields for one base
    item: the Hessian name and, for a magnetic variable, the two names
    derived from the magnetic twin of the coordinate derivative. *)
Definition hess_names (item : string * VarDef) : list string :=
  let '(kk, vv) := item in
  if r_differentiable vv && r_hessian vv
     && (category vv =? OutputVariableCategory.value OutputVariableCategory.OUT)
  then get_hessian_name kk
         :: (if magnetic vv
             then [fst (get_deriv_name (fst (get_deriv_name_mag kk)));
                   fst (get_deriv_name_mag (fst (get_deriv_name_mag kk)))]
             else [])
  else [].

(** A base variable declared under the name [energy_redu]. *)
Definition user_redu_def : VarDef :=
  {| name := "energy_redu"; shape := [7]; output_size := 7;
     atomic := true; reducible := false; r_differentiable := false;
     c_differentiable := false; intensive := false; category := 0;
     r_hessian := false; magnetic := false |}.

(** A magnetic variable [a] with a virial, and a variable declared
    under the name of the magnetic twin of that virial. *)
Definition twin_base_def : VarDef :=
  {| name := "a"; shape := [1]; output_size := 1;
     atomic := true; reducible := true; r_differentiable := true;
     c_differentiable := true; intensive := false; category := 0;
     r_hessian := false; magnetic := true |}.

Definition twin_clash_def : VarDef :=
  {| name := "a_derv_c_mag"; shape := [1]; output_size := 1;
     atomic := true; reducible := false; r_differentiable := false;
     c_differentiable := false; intensive := false; category := 0;
     r_hessian := false; magnetic := false |}.

(** * Properties *)

(** ** Helper lemmas: results *)

Lemma bind_OK_inv {A B : Type} (r : result A) (k : A -> result B) (b : B) :
  bind r k = OK b -> exists a, r = OK a /\ k a = OK b.
Proof.
  destruct r as [a | e]; simpl; intros H; [ eauto | discriminate ].
Qed.

Lemma forM__OK {A : Type} (f : A -> result unit) (l : list A) :
  forM_ f l = OK tt <-> (forall x, In x l -> f x = OK tt).
Proof.
  induction l as [| x l IH]; simpl.
  - split; [ intros _ y [] | reflexivity ].
  - split.
    + intros H. apply bind_OK_inv in H as [[] [Hx Hl]].
      intros y [<- | Hy]; [ assumption | now apply IH ].
    + intros H. rewrite (H x (or_introl eq_refl)). simpl.
      apply IH. intros y Hy. apply H. now right.
Qed.

Lemma forM__Raise {A : Type} (f : A -> result unit) (l : list A) (x : A) :
  In x l -> raises (f x) -> raises (forM_ f l).
Proof.
  induction l as [| y l IH]; simpl; [ intros [] |].
  intros [-> | Hin] Hx.
  - destruct Hx as [e ->]. now exists e.
  - destruct (f y) as [[] | e]; simpl; [ now apply IH | now exists e ].
Qed.

Lemma raises_not_OK {A : Type} (r : result A) :
  raises r <-> forall a, r <> OK a.
Proof.
  split.
  - intros [e ->] a. discriminate.
  - intros H. destruct r as [a | e]; [ now elim (H a) | now exists e ].
Qed.

(** ** Helper lemmas: shapes and sizes *)

Lemma list_Z_eqb_eq (a b : list Z) : list_Z_eqb a b = true <-> a = b.
Proof.
  unfold list_Z_eqb. destruct (list_eq_dec Z.eq_dec a b); split; congruence.
Qed.

Lemma size_loop_from (pre l : list Z) (a : Z) :
  fold_left (fun acc i => acc * nth i (pre ++ l)%list 0)
            (seq (length pre) (length l)) a
  = a * prod l.
Proof.
  revert pre a. induction l as [| x l IH]; intros pre a; simpl.
  - lia.
  - rewrite nth_middle.
    replace (pre ++ x :: l)%list with ((pre ++ [x]) ++ l)%list
      by (rewrite <- app_assoc; reflexivity).
    specialize (IH (pre ++ [x])%list (a * x)).
    rewrite length_app in IH. simpl in IH.
    rewrite Nat.add_1_r in IH. rewrite IH. lia.
Qed.

Lemma size_loop_prod (l : list Z) : size_loop l = prod l.
Proof.
  unfold size_loop.
  change (fold_left (fun acc i => acc * nth i ([] ++ l)%list 0)
                    (seq (length (@nil Z)) (length l)) 1 = prod l).
  rewrite size_loop_from. lia.
Qed.

Lemma init_cases (nm : string) (shp : list Z)
    (red rd cd atm : bool) (cat : Z) (rh mag int : bool) :
  if violated red rd cd atm rh int
  then raises (OutputVariableDef.init nm shp red rd cd atm cat rh mag int)
  else OutputVariableDef.init nm shp red rd cd atm cat rh mag int
       = OK {| name := nm; shape := shp; output_size := size_loop shp;
               atomic := atm; reducible := red; r_differentiable := rd;
               c_differentiable := cd; intensive := int; category := cat;
               r_hessian := rh; magnetic := mag |}.
Proof.
  unfold violated, OutputVariableDef.init, raises.
  destruct red, rd, cd, atm, rh, int; simpl; solve [ reflexivity | eauto ].
Qed.

(** ** The constructor of [OutputVariableDef] *)

(** C4: the constructor raises exactly when one of the four flag
    invariants is violated ([c_differentiable] without
    [r_differentiable]; [reducible] without [atomic]; [intensive]
    without [reducible]; [r_hessian] without [reducible] or without
    [r_differentiable]); for flags that satisfy the four implications
    it succeeds, and [size] is the product of the entries of [shape]. *)
Theorem OutputVariableDef_init_invariants
    (nm : string) (shp : list Z)
    (red rd cd atm : bool) (cat : Z) (rh mag int : bool) :
  (raises (OutputVariableDef.init nm shp red rd cd atm cat rh mag int)
   <-> (cd = true /\ rd = false)
       \/ (red = true /\ atm = false)
       \/ (int = true /\ red = false)
       \/ (rh = true /\ (red = false \/ rd = false)))
  /\ ((cd = true -> rd = true)
      /\ (red = true -> atm = true)
      /\ (int = true -> red = true)
      /\ (rh = true -> red = true /\ rd = true)
      -> exists v,
           OutputVariableDef.init nm shp red rd cd atm cat rh mag int = OK v
           /\ shape v = shp
           /\ size v = prod shp).
Proof.
  pose proof (init_cases nm shp red rd cd atm cat rh mag int) as H.
  split.
  - split.
    + intros [e He].
      destruct red, rd, cd, atm, rh, int; simpl in H;
        solve [ rewrite H in He; discriminate | tauto ].
    + intros Hv.
      destruct red, rd, cd, atm, rh, int; simpl in H;
        solve [ exact H | exfalso; intuition discriminate ].
  - intros (H1 & H2 & H3 & H4).
    destruct red, rd, cd, atm, rh, int; simpl in H;
      try solve [ exfalso; intuition discriminate ];
      (eexists; split; [ exact H | split; [ reflexivity |] ]);
      unfold size; simpl; apply size_loop_prod.
Qed.

Lemma OutputVariableDef_init_invariants_witness :
  exists v,
    OutputVariableDef.init "polar" [3; 3] true true true true 0
                           false false false = OK v
    /\ shape v = [3; 3]
    /\ size v = 9.
Proof.
  apply (proj2 (OutputVariableDef_init_invariants
                  "polar" [3; 3] true true true true 0 false false false)).
  repeat split; intros; try reflexivity; discriminate.
Defined.

(** C10: the constructor never looks at the entries of [shape], so a
    wildcard [-1] is accepted like any other entry, and [size] is the
    signed product of all the entries; the variable [dos] of the DOS
    model, of shape [[-1]], has size [-1]. *)
Theorem wildcard_shape_signed_size :
  (forall nm shp shp' red rd cd atm cat rh mag int,
      is_ok (OutputVariableDef.init nm shp red rd cd atm cat rh mag int)
      = is_ok (OutputVariableDef.init nm shp' red rd cd atm cat rh mag int))
  /\ (forall nm shp red rd cd atm cat rh mag int v,
         OutputVariableDef.init nm shp red rd cd atm cat rh mag int = OK v ->
         shape v = shp /\ size v = prod shp)
  /\ (exists v,
         OutputVariableDef.init "dos" [-1] true false false true 0
                                false false false = OK v
         /\ shape v = [-1] /\ size v = -1)
  /\ (exists m dos,
         DeepDOS.output_def = OK m
         /\ ModelOutputDef.getitem m "dos" = OK dos
         /\ shape dos = [-1] /\ size dos = -1).
Proof.
  split; [| split; [| split ] ].
  - intros. destruct red, rd, cd, atm, rh, int; reflexivity.
  - intros nm shp red rd cd atm cat rh mag int v H.
    pose proof (init_cases nm shp red rd cd atm cat rh mag int) as Hc.
    destruct (violated red rd cd atm rh int).
    + destruct Hc as [e He]. congruence.
    + rewrite Hc in H. injection H as <-. unfold size. simpl.
      split; [ reflexivity | apply size_loop_prod ].
  - eexists. repeat split.
  - do 2 eexists. repeat split.
Qed.

Lemma wildcard_shape_signed_size_witness :
  shape wildcard_def = [-1; 4; -1] /\ size wildcard_def = 4.
Proof.
  apply (proj1 (proj2 wildcard_shape_signed_size)
           "dos" [-1; 4; -1] true false false true 0 false false false
           wildcard_def).
  reflexivity.
Defined.

(** ** [check_shape] and [check_var] *)

(** C2, as the claim states it, fails: against the expected shape
    [[-1, 5]] the actual shape [[4, 5]] is rejected, because only a
    trailing [-1] is a wildcard. *)
Lemma check_shape_leading_wildcard_rejected :
  ~ (check_shape [4; 5] [-1; 5] = OK tt).
Proof.
  discriminate.
Qed.

(** C2 (amended): [check_shape] rejects [[4,5]] against [[-1,5]] and
    accepts it against [[4,-1]]; it rejects [[4,5]] against [[3,5]] and
    [[4]] against [[4,5]] (length mismatch).  For a non-empty expected
    shape it succeeds exactly when the lengths are equal and, if the
    last expected entry is [-1], all entries but the last agree,
    otherwise all entries agree. *)
Theorem check_shape_spec :
  check_shape [4; 5] [-1; 5]
  = Raise (ValueError (ShapeNotMatching [4; 5] [-1; 5]))
  /\ check_shape [4; 5] [4; -1] = OK tt
  /\ check_shape [4; 5] [3; 5]
     = Raise (ValueError (ShapeNotMatching [4; 5] [3; 5]))
  /\ check_shape [4] [4; 5] = Raise AssertionError
  /\ (forall shape def_shape,
         def_shape <> [] ->
         (check_shape shape def_shape = OK tt
          <-> length shape = length def_shape
              /\ if last def_shape 0 =? -1
                 then removelast shape = removelast def_shape
                 else shape = def_shape)).
Proof.
  repeat (split; [ reflexivity |]).
  intros s d Hd. unfold check_shape, last_item.
  destruct (Nat.eqb_spec (length s) (length d)) as [Hlen | Hlen];
    cbn [negb].
  - destruct d as [| x d]; [ congruence |].
    remember (x :: d) as dd eqn:Edd. cbn [bind].
    destruct (last dd 0 =? -1).
    + destruct (list_Z_eqb (removelast s) (removelast dd)) eqn:E; cbn [negb].
      * apply list_Z_eqb_eq in E. tauto.
      * split; [ discriminate |]. intros [_ H].
        apply <- list_Z_eqb_eq in H. congruence.
    + destruct (list_Z_eqb s dd) eqn:E; cbn [negb].
      * apply list_Z_eqb_eq in E. tauto.
      * split; [ discriminate |]. intros [_ H].
        apply <- list_Z_eqb_eq in H. congruence.
  - split; [ discriminate | tauto ].
Qed.

Lemma check_shape_spec_witness :
  check_shape [7; 4; 5] [7; 4; -1] = OK tt.
Proof.
  apply (proj2 (proj2 (proj2 (proj2 check_shape_spec))) [7; 4; 5] [7; 4; -1]).
  - discriminate.
  - simpl. split; reflexivity.
Defined.

Lemma check_shape_errors (s d : list Z) (e : exn) :
  check_shape s d = Raise e ->
  e = AssertionError \/ e = IndexError
  \/ exists s' d', e = ValueError (ShapeNotMatching s' d').
Proof.
  unfold check_shape, last_item.
  destruct (Nat.eqb (length s) (length d)); cbn [negb];
    [| intros [= <-]; auto ].
  destruct d as [| x d]; [ intros [= <-]; auto |].
  remember (x :: d) as dd eqn:Edd. cbn [bind].
  destruct (last dd 0 =? -1).
  - destruct (list_Z_eqb _ _); cbn [negb]; [ discriminate |].
    intros [= <-]. eauto.
  - destruct (list_Z_eqb _ _); cbn [negb]; [ discriminate |].
    intros [= <-]. eauto.
Qed.

(** C8: [check_var] requires the rank of the tensor to be
    [len(var_def.shape) + 2] for an atomic definition and
    [len(var_def.shape) + 1] otherwise; a rank mismatch raises the
    "length not matching" error, and no error of [check_shape] on the
    stripped shape is that one. *)
Theorem check_var_rank (var : ndarray) (var_def : VarDef) :
  (length (ndshape var) <> (length (shape var_def) + leading_dims var_def)%nat ->
   check_var var var_def
   = Raise (ValueError
              (LengthNotMatching (skipn (leading_dims var_def) (ndshape var))
                                 (shape var_def))))
  /\ (length (ndshape var) = (length (shape var_def) + leading_dims var_def)%nat ->
      check_var var var_def
      = check_shape (skipn (leading_dims var_def) (ndshape var))
                    (shape var_def))
  /\ (check_var var var_def = OK tt ->
      length (ndshape var) = (length (shape var_def) + leading_dims var_def)%nat)
  /\ (forall s d t d',
         check_shape s d <> Raise (ValueError (LengthNotMatching t d'))).
Proof.
  assert (Hrank :
    (length (ndshape var) <> (length (shape var_def) + leading_dims var_def)%nat ->
     check_var var var_def
     = Raise (ValueError
                (LengthNotMatching (skipn (leading_dims var_def) (ndshape var))
                                   (shape var_def))))
    /\ (length (ndshape var) = (length (shape var_def) + leading_dims var_def)%nat ->
        check_var var var_def
        = check_shape (skipn (leading_dims var_def) (ndshape var))
                      (shape var_def))).
  { unfold check_var, leading_dims.
    destruct (atomic var_def);
      match goal with
      | |- context [Nat.eqb ?a ?b] => destruct (Nat.eqb_spec a b)
      end; simpl; split; intros; solve [ reflexivity | congruence ]. }
  destruct Hrank as [Hne Heq].
  split; [ exact Hne | split; [ exact Heq | split ] ].
  - intros Hok.
    destruct (Nat.eq_dec (length (ndshape var))
                (length (shape var_def) + leading_dims var_def)) as [E | E];
      [ exact E | rewrite (Hne E) in Hok; discriminate ].
  - intros s d t d' H.
    apply check_shape_errors in H as [H | [H | (s' & d'' & H)]]; discriminate.
Qed.

Lemma check_var_rank_witness :
  check_var {| ndshape := [10; 192; 3] |} energy_def = check_shape [3] [1]
  /\ check_var {| ndshape := [10; 192] |} energy_def
     = Raise (ValueError (LengthNotMatching [] [1])).
Proof.
  split.
  - exact (proj1 (proj2 (check_var_rank {| ndshape := [10; 192; 3] |}
                                        energy_def))
                 eq_refl).
  - apply (proj1 (check_var_rank {| ndshape := [10; 192] |} energy_def)).
    vm_compute. discriminate.
Defined.

(** ** The category algebra *)

Lemma land_pow2_eqb (c n : Z) :
  0 <= n -> (Z.land c (2 ^ n) =? 2 ^ n) = Z.testbit c n.
Proof.
  intros Hn. destruct (Z.testbit c n) eqn:E.
  - apply Z.eqb_eq. apply Z.bits_inj'. intros m Hm.
    rewrite Z.land_spec, Z.pow2_bits_eqb by assumption.
    destruct (Z.eqb_spec n m) as [<- | _].
    + now rewrite E.
    + apply andb_false_r.
  - apply Z.eqb_neq. intros H.
    apply (f_equal (fun z => Z.testbit z n)) in H.
    rewrite Z.land_spec, Z.pow2_bits_true, E in H by assumption.
    discriminate.
Qed.

Lemma applied_testbit (v : VarDef) (op : Op) :
  check_operation_applied v op
  = match op_bit op with
    | Some n => Z.testbit (category v) n
    | None => true
    end.
Proof.
  unfold check_operation_applied.
  destruct op; simpl op_bit; cbn [op_value OutputVariableOperation.value].
  - rewrite Z.land_0_r. reflexivity.
  - apply (land_pow2_eqb (category v) 0). lia.
  - apply (land_pow2_eqb (category v) 1). lia.
  - apply (land_pow2_eqb (category v) 2). lia.
  - apply (land_pow2_eqb (category v) 3). lia.
  - apply (land_pow2_eqb (category v) 4). lia.
Qed.

Lemma land_lor_keeps (c x o : Z) :
  Z.land c o = o -> Z.land (Z.lor c x) o = o.
Proof.
  intros H. apply Z.bits_inj'. intros m _.
  apply (f_equal (fun z => Z.testbit z m)) in H.
  rewrite Z.land_spec in H. rewrite Z.land_spec, Z.lor_spec.
  destruct (Z.testbit c m), (Z.testbit x m), (Z.testbit o m);
    simpl in *; congruence.
Qed.

Lemma land_lor_self (c x : Z) : Z.land (Z.lor c x) c = c.
Proof.
  apply Z.bits_inj'. intros m _.
  rewrite Z.land_spec, Z.lor_spec.
  destruct (Z.testbit c m), (Z.testbit x m); reflexivity.
Qed.

Lemma land_lor_own (c x : Z) : Z.land (Z.lor c x) x = x.
Proof.
  rewrite Z.lor_comm. apply land_lor_self.
Qed.

Lemma apply_operation_result (v : VarDef) (op : Op) (c : Z) :
  apply_operation v op = OK c -> exists x, c = Z.lor (category v) x.
Proof.
  unfold apply_operation.
  destruct op; try discriminate;
    repeat match goal with
      | |- context [if ?b then _ else _] => destruct b
      end;
    try discriminate; intros [= <-]; eauto.
Qed.

(** C5: [apply_operation] with [DERV_R] on a category that has the
    [DERV_R] bit returns the category with the [_SEC_DERV_R] bit added;
    when both bits are there already it raises, so the third of three
    successive applications raises.  With [REDU] or [DERV_C] it raises
    when that bit is set and returns [category | op] otherwise; every
    other operation is not supported. *)
Theorem apply_operation_spec (v : VarDef) :
  (check_operation_applied v OutputVariableOperation.DERV_R = false ->
   apply_operation v OutputVariableOperation.DERV_R
   = OK (Z.lor (category v) 2))
  /\ (check_operation_applied v OutputVariableOperation.DERV_R = true ->
      check_operation_applied v OutputVariableOperation._SEC_DERV_R = false ->
      apply_operation v OutputVariableOperation.DERV_R
      = OK (Z.lor (category v) 8)
      /\ Z.land (Z.lor (category v) 8) 8 = 8
      /\ Z.land (Z.lor (category v) 8) (category v) = category v)
  /\ (check_operation_applied v OutputVariableOperation.DERV_R = true ->
      check_operation_applied v OutputVariableOperation._SEC_DERV_R = true ->
      apply_operation v OutputVariableOperation.DERV_R
      = Raise (ValueError
                 (OperationAppliedTwice OutputVariableOperation._SEC_DERV_R)))
  /\ (forall v1 v2 c1 c2,
         apply_operation v OutputVariableOperation.DERV_R = OK c1 ->
         category v1 = c1 ->
         apply_operation v1 OutputVariableOperation.DERV_R = OK c2 ->
         category v2 = c2 ->
         check_operation_applied v2 OutputVariableOperation._SEC_DERV_R = true
         /\ raises (apply_operation v2 OutputVariableOperation.DERV_R))
  /\ (forall op,
         op = OutputVariableOperation.REDU
         \/ op = OutputVariableOperation.DERV_C ->
         (check_operation_applied v op = true ->
          apply_operation v op = Raise (ValueError (OperationApplied op)))
         /\ (check_operation_applied v op = false ->
             apply_operation v op = OK (Z.lor (category v) (op_value op))))
  /\ (forall op,
         op <> OutputVariableOperation.REDU ->
         op <> OutputVariableOperation.DERV_C ->
         op <> OutputVariableOperation.DERV_R ->
         apply_operation v op = Raise (ValueError (OperationNotSupported op))).
Proof.
  split; [| split; [| split; [| split; [| split ] ] ] ].
  - intros H. unfold apply_operation. now rewrite H.
  - intros H1 H2. unfold apply_operation. rewrite H1, H2.
    split; [ reflexivity | split ].
    + apply land_lor_own.
    + apply land_lor_self.
  - intros H1 H2. unfold apply_operation. now rewrite H1, H2.
  - intros v1 v2 c1 c2 A1 E1 A2 E2.
    unfold apply_operation in *. rewrite !applied_testbit in *.
    simpl op_bit in *. cbv iota in *.
    rewrite E2.
    destruct (Z.testbit (category v) 1) eqn:B1,
             (Z.testbit (category v) 3) eqn:B3;
      cbv iota in A1; try discriminate A1;
      injection A1 as <-; rewrite E1 in A2;
      rewrite !Z.lor_spec, B1, B3 in A2; simpl in A2;
      try discriminate A2.
    injection A2 as <-.
    rewrite !Z.lor_spec, B1, B3. simpl.
    split; [ reflexivity | eexists; reflexivity ].
  - intros op [-> | ->]; unfold apply_operation;
      split; intros H; now rewrite H.
  - intros op H1 H2 H3. destruct op; try congruence; reflexivity.
Qed.

Lemma apply_operation_spec_witness :
  apply_operation (with_category 2) OutputVariableOperation.DERV_R = OK 10
  /\ Z.land 10 8 = 8
  /\ Z.land 10 2 = 2.
Proof.
  exact (proj1 (proj2 (apply_operation_spec (with_category 2)))
               eq_refl eq_refl).
Defined.

(** C9: when [apply_operation] returns, the returned category has every
    bit of the input category, so every operation that
    [check_operation_applied] reported on the input is still reported
    on a definition that carries the returned category. *)
Theorem apply_operation_extends (v : VarDef) (op : Op) (c : Z) :
  apply_operation v op = OK c ->
  Z.land c (category v) = category v
  /\ (forall n, Z.testbit (category v) n = true -> Z.testbit c n = true)
  /\ (forall v' op',
         category v' = c ->
         check_operation_applied v op' = true ->
         check_operation_applied v' op' = true).
Proof.
  intros H. apply apply_operation_result in H as [x ->].
  split; [ apply land_lor_self | split ].
  - intros n Hn.
    destruct (Z.neg_nonneg_cases n) as [Hneg | Hpos].
    + rewrite Z.testbit_neg_r in Hn by assumption. discriminate.
    + rewrite Z.lor_spec, Hn. reflexivity.
  - intros v' op' Hc. unfold check_operation_applied. rewrite Hc.
    rewrite !Z.eqb_eq. apply land_lor_keeps.
Qed.

Lemma apply_operation_extends_witness :
  Z.land 7 (category (with_category 3)) = category (with_category 3)
  /\ (forall n, Z.testbit (category (with_category 3)) n = true ->
                Z.testbit 7 n = true)
  /\ (forall v' op',
         category v' = 7 ->
         check_operation_applied (with_category 3) op' = true ->
         check_operation_applied v' op' = true).
Proof.
  apply (apply_operation_extends (with_category 3)
           OutputVariableOperation.DERV_C 7).
  reflexivity.
Defined.

(** ** Helper lemmas: dicts *)

Section DictLemmas.
Context {V : Type}.
Implicit Types (d : PyDict.t V) (k x : string) (v w : V).

Lemma get_set_eq d k v : PyDict.get (PyDict.set d k v) k = Some v.
Proof.
  induction d as [| [k' v'] d IH]; simpl.
  - now rewrite String.eqb_refl.
  - destruct (String.eqb k' k) eqn:E; simpl; rewrite E; auto.
Qed.

Lemma get_set_neq d k v x :
  k <> x -> PyDict.get (PyDict.set d k v) x = PyDict.get d x.
Proof.
  intros Hne. induction d as [| [k' v'] d IH]; simpl.
  - apply String.eqb_neq in Hne. now rewrite Hne.
  - destruct (String.eqb_spec k' k) as [-> | Hk]; simpl.
    + apply String.eqb_neq in Hne. now rewrite Hne.
    + now rewrite IH.
Qed.

Lemma set_all_app d (es fs : list (string * V)) :
  PyDict.set_all d (es ++ fs)%list
  = PyDict.set_all (PyDict.set_all d es) fs.
Proof.
  unfold PyDict.set_all. apply fold_left_app.
Qed.

Lemma get_set_all_notin d (es : list (string * V)) x :
  (forall e, In e es -> fst e <> x) ->
  PyDict.get (PyDict.set_all d es) x = PyDict.get d x.
Proof.
  revert d. induction es as [| [k v] es IH]; intros d H; simpl.
  - reflexivity.
  - rewrite IH by (intros e He; apply H; now right).
    apply get_set_neq. apply (H (k, v)). now left.
Qed.

Lemma get_set_all_last d (es fs : list (string * V)) x w :
  (forall e, In e fs -> fst e <> x) ->
  PyDict.get (PyDict.set_all d (es ++ (x, w) :: fs)%list) x = Some w.
Proof.
  intros H. rewrite set_all_app. simpl.
  rewrite get_set_all_notin by assumption.
  apply get_set_eq.
Qed.

Lemma keys_set d k v :
  PyDict.keys (PyDict.set d k v)
  = if in_dec string_dec k (PyDict.keys d)
    then PyDict.keys d
    else (PyDict.keys d ++ [k])%list.
Proof.
  unfold PyDict.keys. induction d as [| [k' v'] d IH]; simpl.
  - reflexivity.
  - destruct (String.eqb_spec k' k) as [-> | Hk]; simpl.
    + destruct (string_dec k k); [ reflexivity | congruence ].
    + rewrite IH. destruct (string_dec k' k); [ congruence |].
      destruct (in_dec string_dec k (map fst d)); reflexivity.
Qed.

Lemma wf_set d k v : PyDict.wf d -> PyDict.wf (PyDict.set d k v).
Proof.
  unfold PyDict.wf. intros H. rewrite keys_set.
  destruct (in_dec string_dec k (PyDict.keys d)) as [Hin | Hin].
  - assumption.
  - apply NoDup_app; [ assumption | repeat constructor; intros [] | ].
    intros a Ha [<- | []]. contradiction.
Qed.

Lemma wf_set_all d (es : list (string * V)) :
  PyDict.wf d -> PyDict.wf (PyDict.set_all d es).
Proof.
  revert d. induction es as [| e es IH]; intros d H; simpl.
  - assumption.
  - apply IH. now apply wf_set.
Qed.

Lemma get_In d k v : PyDict.get d k = Some v -> In (k, v) d.
Proof.
  induction d as [| [k' v'] d IH]; simpl; [ discriminate |].
  destruct (String.eqb_spec k' k) as [-> | Hk].
  - intros [= ->]. now left.
  - intros H. right. auto.
Qed.

Lemma wf_In_get d k v : PyDict.wf d -> In (k, v) d -> PyDict.get d k = Some v.
Proof.
  unfold PyDict.wf, PyDict.keys.
  induction d as [| [k' v'] d IH]; simpl; [ intros _ [] |].
  intros Hnd [[= -> ->] | Hin].
  - now rewrite String.eqb_refl.
  - inversion Hnd as [| ? ? Hk Hd]; subst.
    destruct (String.eqb_spec k' k) as [-> | Hne].
    + elim Hk. apply (in_map fst) in Hin. exact Hin.
    + auto.
Qed.

Lemma get_None_keys d k : PyDict.get d k = None <-> ~ In k (PyDict.keys d).
Proof.
  unfold PyDict.keys. induction d as [| [k' v'] d IH]; simpl.
  - tauto.
  - destruct (String.eqb_spec k' k) as [-> | Hne].
    + split; [ discriminate | intros H; elim H; now left ].
    + rewrite IH. tauto.
Qed.

(** In a well-formed dict no other item repeats the key of an item. *)
Lemma wf_split d k v :
  PyDict.wf d -> PyDict.get d k = Some v ->
  exists d1 d2,
    d = (d1 ++ (k, v) :: d2)%list
    /\ ~ In k (PyDict.keys d1) /\ ~ In k (PyDict.keys d2).
Proof.
  intros Hwf Hget. apply get_In in Hget.
  apply in_split in Hget as (d1 & d2 & ->).
  exists d1, d2. split; [ reflexivity |].
  unfold PyDict.wf, PyDict.keys in *.
  rewrite map_app in Hwf. simpl in Hwf.
  apply NoDup_remove_2 in Hwf.
  split; intros Hin; apply Hwf; apply in_or_app; auto.
Qed.

(** The last write to [x] among the items emitted for a dict decides
    what [x] maps to. *)
Lemma get_emitted {A : Type} (emits : A -> list (string * V))
    (l1 l2 : list A) (a : A) (pre post : list (string * V)) x w :
  emits a = (pre ++ (x, w) :: post)%list ->
  (forall e, In e post -> fst e <> x) ->
  (forall b e, In b l2 -> In e (emits b) -> fst e <> x) ->
  PyDict.get
    (PyDict.set_all PyDict.empty (flat_map emits (l1 ++ a :: l2)%list)) x
  = Some w.
Proof.
  intros Ha Hpost Hl2.
  rewrite flat_map_app. simpl. rewrite Ha.
  rewrite <- (app_assoc pre), app_assoc. simpl.
  apply get_set_all_last.
  intros e He. apply in_app_or in He as [He | He].
  - now apply Hpost.
  - apply in_flat_map in He as (b & Hb & He). eapply Hl2; eassumption.
Qed.

Lemma get_not_emitted {A : Type} (emits : A -> list (string * V))
    (l : list A) x :
  (forall b e, In b l -> In e (emits b) -> fst e <> x) ->
  PyDict.get (PyDict.set_all PyDict.empty (flat_map emits l)) x = None.
Proof.
  intros H. rewrite get_set_all_notin; [ reflexivity |].
  intros e He. apply in_flat_map in He as (b & Hb & He).
  eapply H; eassumption.
Qed.
End DictLemmas.

(** ** Helper lemmas: derived names *)

Lemma chars_append (a b : string) :
  list_ascii_of_string (a ++ b)
  = (list_ascii_of_string a ++ list_ascii_of_string b)%list.
Proof.
  induction a as [| c a IH]; simpl; [ reflexivity | now rewrite IH ].
Qed.

Lemma rev_chars_append (a b : string) :
  rev (list_ascii_of_string (a ++ b))
  = (rev (list_ascii_of_string b) ++ rev (list_ascii_of_string a))%list.
Proof.
  rewrite chars_append. apply rev_app_distr.
Qed.

Lemma append_inj_l (a b s : string) : a ++ s = b ++ s -> a = b.
Proof.
  intros H. apply (f_equal list_ascii_of_string) in H.
  rewrite !chars_append in H. apply app_inv_tail in H.
  apply (f_equal string_of_list_ascii) in H.
  now rewrite !string_of_list_ascii_of_string in H.
Qed.

(** Two names that end in different suffixes are different: compare
    the names from their last character backwards. *)
Ltac suffix_clash H :=
  apply (f_equal (fun s => rev (list_ascii_of_string s))) in H;
  rewrite !rev_chars_append in H; simpl in H; congruence.

Lemma string_append_assoc (a b c : string) : (a ++ b) ++ c = a ++ (b ++ c).
Proof.
  induction a as [| x a IH]; simpl; [ reflexivity | now rewrite IH ].
Qed.

(** ** What [do_derivative] emits *)

Lemma init_derv (nm : string) (shp : list Z) (red rd : bool) (cat : Z)
    (mag : bool) :
  OutputVariableDef.init nm shp red rd false true cat false mag false
  = OK (derv_entry nm shp red rd cat mag).
Proof.
  unfold OutputVariableDef.init. destruct red; reflexivity.
Qed.

Lemma do_derivative_step_cases (defs : PyDict.t VarDef * PyDict.t VarDef)
    (item : string * VarDef) :
  if derivable (snd item)
  then do_derivative_step defs item
       = OK (PyDict.set_all (fst defs) (emits_r item),
             PyDict.set_all (snd defs) (emits_c item))
  else raises (do_derivative_step defs item).
Proof.
  destruct defs as [dr dc], item as [kk vv].
  unfold derivable, do_derivative_step, derv_r_part, derv_c_part,
    emits_r, emits_r1, emits_rc, emits_c, derv_r_entry, derv_c_entry,
    apply_operation, get_deriv_name, get_deriv_name_mag, raises.
  cbn [fst snd].
  destruct (r_differentiable vv), (c_differentiable vv), (magnetic vv),
    (check_operation_applied vv OutputVariableOperation.DERV_R),
    (check_operation_applied vv OutputVariableOperation._SEC_DERV_R),
    (check_operation_applied vv OutputVariableOperation.DERV_C);
    cbn [negb andb orb bind app PyDict.set_all fold_left fst snd];
    rewrite ?init_derv;
    cbn [negb andb orb bind app PyDict.set_all fold_left fst snd];
    rewrite ?init_derv;
    cbn [negb andb orb bind app PyDict.set_all fold_left fst snd];
    solve [ reflexivity | eexists; reflexivity ].
Qed.

Lemma foldM_derivative_cases (d : list (string * VarDef))
    (defs : PyDict.t VarDef * PyDict.t VarDef) :
  if forallb (fun item => derivable (snd item)) d
  then foldM do_derivative_step d defs
       = OK (PyDict.set_all (fst defs) (flat_map emits_r d),
             PyDict.set_all (snd defs) (flat_map emits_c d))
  else raises (foldM do_derivative_step d defs).
Proof.
  revert defs. induction d as [| item d IH]; intros defs; simpl.
  - now destruct defs.
  - pose proof (do_derivative_step_cases defs item) as Hs.
    destruct (derivable (snd item)); simpl.
    + rewrite Hs. simpl. specialize (IH
        (PyDict.set_all (fst defs) (emits_r item),
         PyDict.set_all (snd defs) (emits_c item))).
      cbn [fst snd] in IH. rewrite <- !set_all_app in IH. exact IH.
    + destruct Hs as [e ->]. now exists e.
Qed.

(** [do_derivative] returns exactly when every item is [derivable], and
    then both mappings are the items emitted, written in order. *)
Lemma do_derivative_cases (d : PyDict.t VarDef) :
  if forallb (fun item => derivable (snd item)) d
  then do_derivative d
       = OK (PyDict.set_all PyDict.empty (flat_map emits_r d),
             PyDict.set_all PyDict.empty (flat_map emits_c d))
  else raises (do_derivative d).
Proof.
  exact (foldM_derivative_cases d (PyDict.empty, PyDict.empty)).
Qed.

Lemma do_derivative_OK (d dr dc : PyDict.t VarDef) :
  do_derivative d = OK (dr, dc) ->
  dr = PyDict.set_all PyDict.empty (flat_map emits_r d)
  /\ dc = PyDict.set_all PyDict.empty (flat_map emits_c d).
Proof.
  intros H. pose proof (do_derivative_cases d) as Hc.
  destruct (forallb _ d).
  - rewrite Hc in H. injection H as <- <-. auto.
  - destruct Hc as [e He]. congruence.
Qed.

Lemma emits_r_spec (e : string * VarDef) (kk : string) (vv : VarDef) :
  In e (emits_r (kk, vv)) ->
  (e = (kk ++ "_derv_r", derv_r_entry (kk ++ "_derv_r") vv false)
   /\ r_differentiable vv = true)
  \/ (e = (kk ++ "_derv_r_mag", derv_r_entry (kk ++ "_derv_r_mag") vv true)
      /\ r_differentiable vv = true /\ magnetic vv = true)
  \/ (e = (kk ++ "_derv_c_mag", derv_c_entry (kk ++ "_derv_c_mag") vv true)
      /\ c_differentiable vv = true /\ magnetic vv = true).
Proof.
  unfold emits_r, emits_r1, emits_rc.
  destruct (r_differentiable vv), (c_differentiable vv), (magnetic vv);
    simpl; intuition auto.
Qed.

Lemma emits_c_spec (e : string * VarDef) (kk : string) (vv : VarDef) :
  In e (emits_c (kk, vv)) ->
  e = (kk ++ "_derv_c", derv_c_entry (kk ++ "_derv_c") vv false)
  /\ c_differentiable vv = true.
Proof.
  unfold emits_c. destruct (c_differentiable vv); simpl; intuition auto.
Qed.

(** ** Where [do_derivative] puts its entries *)

Lemma key_not_in_keys (d : PyDict.t VarDef) (k k' : string) (v' : VarDef) :
  ~ In k (PyDict.keys d) -> In (k', v') d -> k' <> k.
Proof.
  intros Hk Hin ->. apply Hk. apply (in_map fst) in Hin. exact Hin.
Qed.

Section Derivative.
Variables d dr dc : PyDict.t VarDef.
Hypothesis Hwf : PyDict.wf d.
Hypothesis Hderv : do_derivative d = OK (dr, dc).

Variables (k : string) (v : VarDef).
Hypothesis Hget : PyDict.get d k = Some v.

Lemma derv_r_lookup :
  PyDict.get dr (k ++ "_derv_r")
  = if r_differentiable v
    then Some (derv_r_entry (k ++ "_derv_r") v false)
    else None.
Proof.
  destruct (do_derivative_OK _ _ _ Hderv) as [-> _].
  destruct (r_differentiable v) eqn:Hr.
  - destruct (wf_split _ _ _ Hwf Hget) as (d1 & d2 & -> & _ & Hk2).
    apply get_emitted with
      (pre := [])
      (post := ((if magnetic v
                 then [((k ++ "_derv_r_mag")%string,
                        derv_r_entry (k ++ "_derv_r_mag")%string v true)]
                 else []) ++ emits_rc (k, v))%list).
    + unfold emits_r, emits_r1. now rewrite Hr.
    + intros e He. unfold emits_rc in He.
      destruct (magnetic v), (c_differentiable v); simpl in He;
        repeat (destruct He as [<- | He]; [ simpl; intros H; suffix_clash H |]);
        contradiction.
    + intros [k' v'] e Hb He.
      pose proof (key_not_in_keys _ _ _ _ Hk2 Hb) as Hne.
      apply emits_r_spec in He as [[-> _] | [[-> _] | [-> _]]]; simpl;
        intros H.
      * apply append_inj_l in H. contradiction.
      * suffix_clash H.
      * suffix_clash H.
  - apply get_not_emitted. intros [k' v'] e Hb He.
    apply emits_r_spec in He as [[-> Hr'] | [[-> _] | [-> _]]]; simpl;
      intros H.
    + apply append_inj_l in H. subst k'.
      apply (wf_In_get _ _ _ Hwf) in Hb. congruence.
    + suffix_clash H.
    + suffix_clash H.
Qed.
Lemma derv_c_mag_lookup :
  c_differentiable v = true -> magnetic v = true ->
  PyDict.get dr (k ++ "_derv_c_mag")
  = Some (derv_c_entry (k ++ "_derv_c_mag") v true).
Proof.
  intros Hc Hm.
  destruct (do_derivative_OK _ _ _ Hderv) as [-> _].
  destruct (wf_split _ _ _ Hwf Hget) as (d1 & d2 & -> & _ & Hk2).
  apply get_emitted with (pre := emits_r1 (k, v)) (post := []).
  - unfold emits_r, emits_rc. now rewrite Hc, Hm.
  - intros e [].
  - intros [k' v'] e Hb He.
    pose proof (key_not_in_keys _ _ _ _ Hk2 Hb) as Hne.
    apply emits_r_spec in He as [[-> _] | [[-> _] | [-> _]]]; simpl;
      intros H.
    + suffix_clash H.
    + suffix_clash H.
    + apply append_inj_l in H. contradiction.
Qed.

Lemma derv_c_lookup :
  PyDict.get dc (k ++ "_derv_c")
  = if c_differentiable v
    then Some (derv_c_entry (k ++ "_derv_c") v false)
    else None.
Proof.
  destruct (do_derivative_OK _ _ _ Hderv) as [_ ->].
  destruct (c_differentiable v) eqn:Hc.
  - destruct (wf_split _ _ _ Hwf Hget) as (d1 & d2 & -> & _ & Hk2).
    apply get_emitted with (pre := []) (post := []).
    + unfold emits_c. now rewrite Hc.
    + intros e [].
    + intros [k' v'] e Hb He.
      pose proof (key_not_in_keys _ _ _ _ Hk2 Hb) as Hne.
      apply emits_c_spec in He as [-> _]. simpl. intros H.
      apply append_inj_l in H. contradiction.
  - apply get_not_emitted. intros [k' v'] e Hb He.
    apply emits_c_spec in He as [-> Hc']. simpl. intros H.
    apply append_inj_l in H. subst k'.
    apply (wf_In_get _ _ _ Hwf) in Hb. congruence.
Qed.
End Derivative.

(** Every key of the cell-derivative mapping ends in [_derv_c]; none is
    a [_derv_c_mag] name. *)
Lemma derv_c_has_no_mag_key (d dr dc : PyDict.t VarDef) (k : string) :
  do_derivative d = OK (dr, dc) ->
  PyDict.get dc (k ++ "_derv_c_mag") = None.
Proof.
  intros Hderv. destruct (do_derivative_OK _ _ _ Hderv) as [_ ->].
  apply get_not_emitted. intros [k' v'] e Hb He.
  apply emits_c_spec in He as [-> _]. simpl. intros H. suffix_clash H.
Qed.

Lemma get_Some_keys {V : Type} (d : PyDict.t V) (k : string) (v : V) :
  PyDict.get d k = Some v -> In k (PyDict.keys d).
Proof.
  intros H. apply get_In in H. apply (in_map fst) in H. exact H.
Qed.

Lemma wf_FittingOutputDef_init (defs : list VarDef) :
  PyDict.wf (FittingOutputDef.get_data (FittingOutputDef.init defs)).
Proof.
  unfold FittingOutputDef.get_data, FittingOutputDef.init. simpl.
  assert (H : forall d : PyDict.t VarDef,
             PyDict.wf d ->
             PyDict.wf (fold_left (fun d vv => PyDict.set d (name vv) vv)
                                  defs d)).
  { induction defs as [| vv defs IH]; intros d Hd; simpl.
    - assumption.
    - apply IH. now apply wf_set. }
  apply H. constructor.
Qed.

Lemma ModelOutputDef_init_OK (fit : FittingOutputDef.t) (m : ModelOutputDef.t) :
  ModelOutputDef.init fit = OK m ->
  ModelOutputDef.def_outp m = fit
  /\ do_derivative (FittingOutputDef.get_data fit)
     = OK (ModelOutputDef.def_derv_r m, ModelOutputDef.def_derv_c m)
  /\ exists x,
       do_derivative (ModelOutputDef.def_derv_r m)
       = OK (ModelOutputDef.def_hess_r m, x).
Proof.
  unfold ModelOutputDef.init. intros H.
  apply bind_OK_inv in H as (redu & _ & H).
  apply bind_OK_inv in H as ([dr dc] & Hd & H).
  apply bind_OK_inv in H as ([h x] & Hh & H).
  apply bind_OK_inv in H as (cr & _ & H).
  apply bind_OK_inv in H as (mk & _ & H).
  injection H as <-. simpl. eauto.
Qed.

(** C6: for a base variable [k] that is [c_differentiable] and
    [magnetic], [do_derivative] puts the definition [k + "_derv_c_mag"]
    (shape [+ [9]], reducible, atomic, magnetic) into the first mapping
    it returns, the coordinate-derivative one that [keys_derv_r]
    exposes, and not into the cell-derivative mapping, where the
    non-magnetic [k + "_derv_c"] goes. *)
Theorem derv_c_mag_in_derv_r :
  (forall (d dr dc : PyDict.t VarDef) (k : string) (v : VarDef),
      PyDict.wf d ->
      do_derivative d = OK (dr, dc) ->
      PyDict.get d k = Some v ->
      c_differentiable v = true ->
      magnetic v = true ->
      exists w w',
        PyDict.get dr (k ++ "_derv_c_mag") = Some w
        /\ name w = k ++ "_derv_c_mag"
        /\ shape w = (shape v ++ [9])%list
        /\ reducible w = true /\ atomic w = true /\ magnetic w = true
        /\ PyDict.get dc (k ++ "_derv_c_mag") = None
        /\ PyDict.get dc (k ++ "_derv_c") = Some w'
        /\ name w' = k ++ "_derv_c"
        /\ shape w' = (shape v ++ [9])%list
        /\ reducible w' = true /\ atomic w' = true /\ magnetic w' = false)
  /\ (forall (defs : list VarDef) (m : ModelOutputDef.t) (k : string)
             (v : VarDef),
         ModelOutputDef.init (FittingOutputDef.init defs) = OK m ->
         FittingOutputDef.getitem (FittingOutputDef.init defs) k = OK v ->
         c_differentiable v = true ->
         magnetic v = true ->
         In (k ++ "_derv_c_mag") (ModelOutputDef.keys_derv_r m)
         /\ ~ In (k ++ "_derv_c_mag") (ModelOutputDef.keys_derv_c m)
         /\ In (k ++ "_derv_c") (ModelOutputDef.keys_derv_c m)).
Proof.
  assert (Hmain :
    forall (d dr dc : PyDict.t VarDef) (k : string) (v : VarDef),
      PyDict.wf d ->
      do_derivative d = OK (dr, dc) ->
      PyDict.get d k = Some v ->
      c_differentiable v = true ->
      magnetic v = true ->
      PyDict.get dr (k ++ "_derv_c_mag")
      = Some (derv_c_entry (k ++ "_derv_c_mag") v true)
      /\ PyDict.get dc (k ++ "_derv_c_mag") = None
      /\ PyDict.get dc (k ++ "_derv_c")
         = Some (derv_c_entry (k ++ "_derv_c") v false)).
  { intros d dr dc k v Hwf Hd Hget Hc Hm.
    split; [| split ].
    - now apply (derv_c_mag_lookup d dr dc Hwf Hd k v).
    - now apply (derv_c_has_no_mag_key d dr dc).
    - rewrite (derv_c_lookup d dr dc Hwf Hd k v Hget). now rewrite Hc. }
  split.
  - intros d dr dc k v Hwf Hd Hget Hc Hm.
    destruct (Hmain d dr dc k v Hwf Hd Hget Hc Hm) as (H1 & H2 & H3).
    exists (derv_c_entry (k ++ "_derv_c_mag") v true),
           (derv_c_entry (k ++ "_derv_c") v false).
    repeat split; assumption.
  - intros defs m k v Hm Hk Hc Hmag.
    apply ModelOutputDef_init_OK in Hm as (_ & Hd & _).
    unfold FittingOutputDef.getitem, PyDict.getitem in Hk.
    destruct (PyDict.get (FittingOutputDef.var_defs (FittingOutputDef.init defs)) k)
      as [v0 |] eqn:Hget; [| discriminate ].
    injection Hk as ->.
    destruct (Hmain _ _ _ k v (wf_FittingOutputDef_init defs) Hd Hget Hc Hmag)
      as (H1 & H2 & H3).
    unfold ModelOutputDef.keys_derv_r, ModelOutputDef.keys_derv_c.
    split; [| split ].
    + eapply get_Some_keys; eassumption.
    + now apply get_None_keys.
    + eapply get_Some_keys; eassumption.
Qed.

Lemma derv_c_mag_in_derv_r_witness :
  exists w w',
    PyDict.get spin_derv_r "energy_derv_c_mag" = Some w
    /\ name w = "energy_derv_c_mag"
    /\ shape w = [1; 9]
    /\ reducible w = true /\ atomic w = true /\ magnetic w = true
    /\ PyDict.get spin_derv_c "energy_derv_c_mag" = None
    /\ PyDict.get spin_derv_c "energy_derv_c" = Some w'
    /\ name w' = "energy_derv_c"
    /\ shape w' = [1; 9]
    /\ reducible w' = true /\ atomic w' = true /\ magnetic w' = false.
Proof.
  apply (proj1 derv_c_mag_in_derv_r spin_data spin_derv_r spin_derv_c
               "energy" spin_energy_def).
  - repeat constructor. intros [].
  - reflexivity.
  - reflexivity.
  - reflexivity.
  - reflexivity.
Defined.

(** ** The second pass: Hessians *)

Lemma In_set {V : Type} (d : PyDict.t V) (k : string) (v : V)
    (e : string * V) :
  In e (PyDict.set d k v) -> In e d \/ e = (k, v).
Proof.
  induction d as [| [k' v'] d IH]; simpl.
  - intros [<- | []]. now right.
  - destruct (String.eqb_spec k' k) as [-> | Hne]; simpl.
    + intros [<- | H]; auto.
    + intros [<- | H]; [ auto |]. destruct (IH H); auto.
Qed.

Lemma In_set_all {V : Type} (es : list (string * V)) (d : PyDict.t V)
    (e : string * V) :
  In e (PyDict.set_all d es) -> In e d \/ In e es.
Proof.
  revert d. induction es as [| [k v] es IH]; intros d; simpl.
  - auto.
  - intros H. apply IH in H as [H | H]; [| auto ].
    apply In_set in H as [H | ->]; auto.
Qed.

(** A first derivative can be differentiated again without raising. *)
Lemma derivable_emitted (item e : string * VarDef) :
  In e (emits_r item) -> derivable (snd e) = true.
Proof.
  destruct item as [kk vv]. intros H.
  apply emits_r_spec in H as [[-> _] | [[-> _] | [-> _]]];
    try reflexivity;
    unfold derivable, derv_r_entry, derv_entry, check_operation_applied;
    cbn [snd r_differentiable c_differentiable category negb orb andb];
    rewrite andb_true_r;
    (destruct (r_hessian vv); [| reflexivity ]);
    cbn [andb OutputVariableCategory.value OutputVariableOperation.value];
    (destruct (Z.eqb_spec (category vv) 0) as [-> | _]; [| reflexivity ]);
    reflexivity.
Qed.

Lemma second_pass_returns (d dr dc : PyDict.t VarDef) :
  do_derivative d = OK (dr, dc) ->
  exists h x, do_derivative dr = OK (h, x).
Proof.
  intros Hd. destruct (do_derivative_OK _ _ _ Hd) as [-> _].
  pose proof (do_derivative_cases
                (PyDict.set_all PyDict.empty (flat_map emits_r d))) as Hc.
  match type of Hc with
  | if ?b then _ else _ => assert (Hall : b = true)
  end.
  { apply forallb_forall. intros e He.
    apply In_set_all in He as [[] | He].
    apply in_flat_map in He as (item & _ & He).
    eapply derivable_emitted; eassumption. }
  rewrite Hall in Hc. eauto.
Qed.

Lemma wf_derv_r (d dr dc : PyDict.t VarDef) :
  do_derivative d = OK (dr, dc) -> PyDict.wf dr.
Proof.
  intros Hd. destruct (do_derivative_OK _ _ _ Hd) as [-> _].
  apply wf_set_all. constructor.
Qed.

(** Nothing is derived from a name the mapping does not have. *)
Lemma derv_r_of_absent (d dr dc : PyDict.t VarDef) (x : string) :
  do_derivative d = OK (dr, dc) ->
  PyDict.get d x = None ->
  PyDict.get dr (x ++ "_derv_r") = None.
Proof.
  intros Hd Hx. destruct (do_derivative_OK _ _ _ Hd) as [-> _].
  apply get_not_emitted. intros [k' v'] e Hb He.
  apply emits_r_spec in He as [[-> _] | [[-> _] | [-> _]]]; simpl; intros H.
  - apply append_inj_l in H. subst k'.
    apply get_None_keys in Hx. apply Hx.
    apply (in_map fst) in Hb. exact Hb.
  - suffix_clash H.
  - suffix_clash H.
Qed.

Lemma hessian_name_twice (k : string) :
  get_hessian_name k = (k ++ "_derv_r") ++ "_derv_r".
Proof.
  unfold get_hessian_name. now rewrite string_append_assoc.
Qed.

(** ** The model schema of an energy *)

(** C1: for the single base variable [energy] (shape [[1]], reducible,
    differentiable w.r.t. coordinates and cell, atomic, no Hessian, not
    magnetic) the keys of [ModelOutputDef] are exactly [energy],
    [energy_redu], [energy_derv_r], [energy_derv_c],
    [energy_derv_c_redu] and [mask]; there is no Hessian key and no
    magnetic key. *)
Theorem energy_model_keys :
  exists e m,
    OutputVariableDef.init "energy" [1] true true true true
      (OutputVariableCategory.value OutputVariableCategory.OUT)
      false false false = OK e
    /\ ModelOutputDef.init (FittingOutputDef.init [e]) = OK m
    /\ ModelOutputDef.keys m
       = ["energy"; "energy_redu"; "energy_derv_c"; "energy_derv_r";
          "energy_derv_c_redu"; "mask"]
    /\ (forall k,
           In k (ModelOutputDef.keys m)
           <-> In k ["energy"; "energy_redu"; "energy_derv_r";
                     "energy_derv_c"; "energy_derv_c_redu"; "mask"])
    /\ ModelOutputDef.keys_hess_r m = []
    /\ ~ In (get_hessian_name "energy") (ModelOutputDef.keys m)
    /\ ~ In (fst (get_deriv_name_mag "energy")) (ModelOutputDef.keys m)
    /\ ~ In (snd (get_deriv_name_mag "energy")) (ModelOutputDef.keys m)
    /\ ~ In "mask_mag" (ModelOutputDef.keys m).
Proof.
  eexists. eexists.
  split; [ reflexivity |].
  split; [ reflexivity |].
  split; [ reflexivity |].
  split; [ intros k; simpl; tauto |].
  split; [ reflexivity |].
  repeat split; simpl; intros H;
    repeat (destruct H as [H | H]; [ discriminate H |]); exact H.
Qed.


(** ** The model-level output-checking wrapper *)

Lemma getitem_OK {V : Type} (d : PyDict.t V) (k : string) (v : V) :
  PyDict.getitem d k = OK v <-> PyDict.get d k = Some v.
Proof.
  unfold PyDict.getitem. destruct (PyDict.get d k); split; congruence.
Qed.

Lemma check_entry_OK (md : ModelOutputDef.t) (ret : PyDict.t ndarray)
    (k : string) :
  check_entry md ret k = OK tt <-> checked md ret k.
Proof.
  unfold check_entry, checked. split.
  - intros H.
    apply bind_OK_inv in H as (var & Hvar & H).
    apply bind_OK_inv in H as (var_def & Hdef & H).
    apply getitem_OK in Hvar. eauto.
  - intros (var & var_def & Hvar & Hdef & H).
    apply getitem_OK in Hvar. now rewrite Hvar, Hdef.
Qed.

Lemma model_check_key_OK (md : ModelOutputDef.t) (ret : PyDict.t ndarray)
    (kk : string) :
  model_check_key md ret kk = OK tt
  <-> exists dd var,
        ModelOutputDef.getitem md kk = OK dd
        /\ PyDict.get ret kk = Some var
        /\ check_var var dd = OK tt
        /\ (reducible dd = true -> checked md ret (kk ++ "_redu"))
        /\ (r_differentiable dd = true -> checked md ret (kk ++ "_derv_r"))
        /\ (c_differentiable dd = true ->
            r_differentiable dd = true /\ checked md ret (kk ++ "_derv_c")).
Proof.
  unfold model_check_key, get_reduce_name, get_deriv_name. cbn [fst snd].
  split.
  - intros H.
    apply bind_OK_inv in H as (dd & Hdd & H).
    apply bind_OK_inv in H as (var & Hvar & H).
    apply bind_OK_inv in H as ([] & Hcv & H).
    apply bind_OK_inv in H as ([] & Hred & H).
    apply bind_OK_inv in H as ([] & Hrd & Hcd).
    apply getitem_OK in Hvar.
    exists dd, var. repeat (split; [ assumption |]).
    split; [| split ].
    + intros E. rewrite E in Hred. now apply check_entry_OK.
    + intros E. rewrite E in Hrd. now apply check_entry_OK.
    + intros E. rewrite E in Hcd.
      destruct (r_differentiable dd); [| discriminate Hcd ].
      split; [ reflexivity | now apply check_entry_OK ].
  - intros (dd & var & Hdd & Hvar & Hcv & Hred & Hrd & Hcd).
    apply getitem_OK in Hvar. rewrite Hdd. cbn [bind].
    rewrite Hvar. cbn [bind]. rewrite Hcv. cbn [bind].
    assert (E1 : (if reducible dd
                  then check_entry md ret (kk ++ "_redu") else OK tt) = OK tt).
    { destruct (reducible dd); [ apply check_entry_OK; auto | reflexivity ]. }
    assert (E2 : (if r_differentiable dd
                  then check_entry md ret (kk ++ "_derv_r") else OK tt)
                 = OK tt).
    { destruct (r_differentiable dd);
        [ apply check_entry_OK; auto | reflexivity ]. }
    rewrite E1. cbn [bind]. rewrite E2. cbn [bind].
    destruct (c_differentiable dd); [| reflexivity ].
    destruct (Hcd eq_refl) as [-> Hc]. cbn [negb].
    now apply check_entry_OK.
Qed.

Lemma model_check_key_missing_derv_c (md : ModelOutputDef.t)
    (ret : PyDict.t ndarray) (kk : string) (dd : VarDef) :
  ModelOutputDef.getitem md kk = OK dd ->
  c_differentiable dd = true ->
  PyDict.get ret (kk ++ "_derv_c") = None ->
  raises (model_check_key md ret kk).
Proof.
  intros Hdd Hc Hnone. apply raises_not_OK. intros [] H.
  apply model_check_key_OK in H
    as (dd' & var & Hdd' & _ & _ & _ & _ & Hcd).
  rewrite Hdd in Hdd'. injection Hdd' as <-.
  destruct (Hcd Hc) as (_ & var' & var_def & Hget & _). congruence.
Qed.

Section WrapperProperties.
Context {Args : Type}.
Variable cls_call : Args -> result (PyDict.t ndarray).
Variable md : ModelOutputDef.t.
Variable args : Args.

(** C7: the model wrapper returns exactly when the wrapped call
    returns a mapping that passes, for every key of [keys_outp], the
    check of the base tensor, of the [_redu] tensor when the definition
    is reducible, of the [_derv_r] tensor when it is
    [r_differentiable] and of the [_derv_c] tensor when it is
    [c_differentiable]; what it returns then is the mapping of the
    wrapped call.  The base tensor is checked first.  When the mapping
    lacks the [_derv_c] entry of a [c_differentiable] key the wrapper
    raises, and an exception of the wrapped call goes through. *)
Theorem model_check_output_spec :
  (forall ret,
      model_check_output cls_call md args = OK ret
      <-> cls_call args = OK ret
          /\ forall kk,
               In kk (ModelOutputDef.keys_outp md) ->
               exists dd var,
                 ModelOutputDef.getitem md kk = OK dd
                 /\ PyDict.get ret kk = Some var
                 /\ check_var var dd = OK tt
                 /\ (reducible dd = true -> checked md ret (kk ++ "_redu"))
                 /\ (r_differentiable dd = true ->
                     checked md ret (kk ++ "_derv_r"))
                 /\ (c_differentiable dd = true ->
                     r_differentiable dd = true
                     /\ checked md ret (kk ++ "_derv_c")))
  /\ (forall ret kk dd var e,
         ModelOutputDef.getitem md kk = OK dd ->
         PyDict.get ret kk = Some var ->
         check_var var dd = Raise e ->
         model_check_key md ret kk = Raise e)
  /\ (forall ret kk dd,
         cls_call args = OK ret ->
         In kk (ModelOutputDef.keys_outp md) ->
         ModelOutputDef.getitem md kk = OK dd ->
         c_differentiable dd = true ->
         PyDict.get ret (kk ++ "_derv_c") = None ->
         raises (model_check_output cls_call md args))
  /\ (forall e,
         cls_call args = Raise e ->
         model_check_output cls_call md args = Raise e).
Proof.
  split; [| split; [| split ] ].
  - intros ret. unfold model_check_output.
    destruct (cls_call args) as [r | e]; cbn [bind].
    + split.
      * intros H. apply bind_OK_inv in H as ([] & Hf & H).
        injection H as ->. split; [ reflexivity |].
        intros kk Hkk. apply model_check_key_OK.
        now apply (proj1 (forM__OK _ _) Hf).
      * intros [[= ->] Hall].
        assert (Hf : forM_ (model_check_key md ret)
                           (ModelOutputDef.keys_outp md) = OK tt).
        { apply forM__OK. intros kk Hkk.
          apply model_check_key_OK. auto. }
        now rewrite Hf.
    + split; [ discriminate | intros [H _]; discriminate H ].
  - intros ret kk dd var e Hdd Hvar Hcv.
    unfold model_check_key. rewrite Hdd. cbn [bind].
    apply getitem_OK in Hvar. rewrite Hvar. cbn [bind].
    now rewrite Hcv.
  - intros ret kk dd Hcall Hkk Hdd Hc Hnone.
    unfold model_check_output. rewrite Hcall. cbn [bind].
    assert (Hr : raises (forM_ (model_check_key md ret)
                               (ModelOutputDef.keys_outp md))).
    { apply forM__Raise with (x := kk); [ assumption |].
      eapply model_check_key_missing_derv_c; eassumption. }
    destruct Hr as [e ->]. now exists e.
  - intros e He. unfold model_check_output. now rewrite He.
Qed.
End WrapperProperties.

Lemma model_check_output_spec_witness :
  exists e m,
    OutputVariableDef.init "energy" [1] true true true true
      (OutputVariableCategory.value OutputVariableCategory.OUT)
      false false false = OK e
    /\ ModelOutputDef.init (FittingOutputDef.init [e]) = OK m
    /\ raises (model_check_output forgetful_call m tt).
Proof.
  eexists. eexists.
  split; [ reflexivity |].
  split; [ reflexivity |].
  eapply (proj1 (proj2 (proj2 (model_check_output_spec forgetful_call _ tt)))
            _ "energy").
  - reflexivity.
  - simpl. now left.
  - reflexivity.
  - reflexivity.
  - reflexivity.
Defined.

(** * Further properties of the module *)

(** ** [squeeze] *)

Lemma prod_app (a b : list Z) : prod (a ++ b)%list = prod a * prod b.
Proof.
  unfold prod. induction a as [| x a IH]; simpl.
  - destruct (fold_right Z.mul 1 b); reflexivity.
  - rewrite IH. lia.
Qed.

Lemma prod_pop_at (i : nat) (l : list Z) :
  nth i l 0 = 1 -> prod (pop_at i l) = prod l.
Proof.
  revert i. induction l as [| x l IH]; intros i H.
  - unfold pop_at. now rewrite firstn_nil, skipn_nil.
  - destruct i as [| j].
    + simpl in H. subst x. unfold pop_at, prod. simpl.
      now destruct (fold_right Z.mul 1 l).
    + simpl in H. specialize (IH j H).
      change (pop_at (S j) (x :: l)) with (x :: pop_at j l).
      change (x * prod (pop_at j l) = x * prod l). now rewrite IH.
Qed.

Lemma pop_at_middle (pre post : list Z) (x : Z) :
  pop_at (length pre) (pre ++ x :: post)%list = (pre ++ post)%list.
Proof.
  induction pre as [| a pre IH].
  - reflexivity.
  - change (a :: pop_at (length pre) (pre ++ x :: post)%list
            = a :: (pre ++ post)%list).
    now rewrite IH.
Qed.

(** X1: [squeeze] never changes the number of elements: the product of
    the entries of [shape] is the same before and after, and so is
    [size], whatever [dim] is; the other attributes are kept. *)
Theorem squeeze_keeps_size (v : VarDef) (dim : Z) :
  prod (shape (squeeze v dim)) = prod (shape v)
  /\ size (squeeze v dim) = size v
  /\ name (squeeze v dim) = name v
  /\ category (squeeze v dim) = category v
  /\ atomic (squeeze v dim) = atomic v
  /\ reducible (squeeze v dim) = reducible v.
Proof.
  unfold squeeze.
  destruct ((- Z.of_nat (length (shape v)) <=? dim)
            && (dim <? Z.of_nat (length (shape v)))) eqn:Hrange;
    cbn [andb]; [| repeat split ].
  destruct (Z.eqb_spec (nth (py_index (length (shape v)) dim) (shape v) 0) 1)
    as [H1 | _]; [| repeat split ].
  cbn [shape size output_size name category atomic reducible].
  repeat split. now apply prod_pop_at.
Qed.

(** X2: the unit entry at position [length pre] of a shape
    [pre ++ 1 :: post] is removed by [squeeze] with that index and with
    the negative index that counts from the end; an entry other than 1
    is kept, and so is the shape when [dim] is out of range. *)
Theorem squeeze_removes_unit_entry (v : VarDef) (pre post : list Z) (x : Z) :
  shape v = (pre ++ x :: post)%list ->
  (x = 1 ->
   shape (squeeze v (Z.of_nat (length pre))) = (pre ++ post)%list
   /\ shape (squeeze v (- Z.of_nat (S (length post)))) = (pre ++ post)%list)
  /\ (x <> 1 ->
      squeeze v (Z.of_nat (length pre)) = v
      /\ squeeze v (- Z.of_nat (S (length post))) = v)
  /\ (forall dim,
         dim < - Z.of_nat (length (shape v))
         \/ Z.of_nat (length (shape v)) <= dim ->
         squeeze v dim = v).
Proof.
  intros Hs.
  assert (Hlen : length (shape v) = (length pre + S (length post))%nat).
  { rewrite Hs, length_app. reflexivity. }
  assert (Hpos : (- Z.of_nat (length (shape v)) <=? Z.of_nat (length pre))
                 && (Z.of_nat (length pre) <? Z.of_nat (length (shape v)))
                 = true).
  { apply andb_true_intro. split; [ apply Z.leb_le | apply Z.ltb_lt ]; lia. }
  assert (Hneg : (- Z.of_nat (length (shape v))
                  <=? - Z.of_nat (S (length post)))
                 && (- Z.of_nat (S (length post))
                     <? Z.of_nat (length (shape v))) = true).
  { apply andb_true_intro. split; [ apply Z.leb_le | apply Z.ltb_lt ]; lia. }
  assert (Hi1 : py_index (length (shape v)) (Z.of_nat (length pre))
                = length pre).
  { unfold py_index.
    destruct (Z.ltb_spec (Z.of_nat (length pre)) 0); lia. }
  assert (Hi2 : py_index (length (shape v)) (- Z.of_nat (S (length post)))
                = length pre).
  { unfold py_index.
    destruct (Z.ltb_spec (- Z.of_nat (S (length post))) 0); lia. }
  assert (Hnth : nth (length pre) (shape v) 0 = x).
  { rewrite Hs. apply nth_middle. }
  split; [| split ].
  - intros ->. unfold squeeze.
    rewrite Hpos, Hneg, Hi1, Hi2, Hnth. cbn [andb Z.eqb Pos.eqb shape].
    rewrite Hs, pop_at_middle. auto.
  - intros Hx. apply Z.eqb_neq in Hx. unfold squeeze.
    rewrite Hpos, Hneg, Hi1, Hi2, Hnth, Hx. auto.
  - intros dim Hdim. unfold squeeze.
    replace ((- Z.of_nat (length (shape v)) <=? dim)
             && (dim <? Z.of_nat (length (shape v)))) with false;
      [ reflexivity |].
    symmetry. apply andb_false_iff.
    destruct Hdim; [ left; apply Z.leb_gt | right; apply Z.ltb_ge ]; lia.
Qed.

Lemma squeeze_removes_unit_entry_witness :
  shape (squeeze energy_def 0) = [] /\ shape (squeeze energy_def (-1)) = [].
Proof.
  exact (proj1 (squeeze_removes_unit_entry energy_def [] [] 1 eq_refl)
               eq_refl).
Defined.

(** ** More on [check_shape] and [check_var] *)

Lemma check_shape_OK_nonempty (s d : list Z) :
  d <> [] ->
  (check_shape s d = OK tt
   <-> length s = length d
       /\ if last d 0 =? -1
          then removelast s = removelast d
          else s = d).
Proof.
  intros Hd. unfold check_shape, last_item.
  destruct (Nat.eqb_spec (length s) (length d)) as [Hlen | Hlen];
    cbn [negb]; [| split; [ discriminate | tauto ] ].
  destruct d as [| x d]; [ congruence |].
  remember (x :: d) as dd eqn:Edd. cbn [bind].
  destruct (last dd 0 =? -1).
  - destruct (list_Z_eqb (removelast s) (removelast dd)) eqn:E; cbn [negb].
    + apply list_Z_eqb_eq in E. tauto.
    + split; [ discriminate |]. intros [_ H].
      apply <- list_Z_eqb_eq in H. congruence.
  - destruct (list_Z_eqb s dd) eqn:E; cbn [negb].
    + apply list_Z_eqb_eq in E. tauto.
    + split; [ discriminate |]. intros [_ H].
      apply <- list_Z_eqb_eq in H. congruence.
Qed.

(** X3: against an empty expected shape [check_shape] never succeeds:
    [def_shape[-1]] raises [IndexError] when the actual shape is empty
    too, and the length assertion fails otherwise.  So no tensor passes
    [check_var] for a definition whose shape is empty. *)
Theorem check_shape_empty_def :
  (forall s,
      check_shape s []
      = Raise (match s with [] => IndexError | _ :: _ => AssertionError end))
  /\ (forall var var_def,
         shape var_def = [] -> raises (check_var var var_def)).
Proof.
  assert (H0 : forall s,
             check_shape s []
             = Raise (match s with
                      | [] => IndexError
                      | _ :: _ => AssertionError
                      end)).
  { intros [| x s]; reflexivity. }
  split; [ exact H0 |].
  intros var var_def Hs. unfold check_var. rewrite Hs.
  destruct (atomic var_def);
    match goal with
    | |- context [Nat.eqb ?a ?b] => destruct (Nat.eqb a b)
    end; cbn [negb];
    solve [ eexists; reflexivity | rewrite H0; eexists; reflexivity ].
Qed.

Lemma check_shape_empty_def_witness :
  raises (check_var {| ndshape := [10; 192] |} (squeeze energy_def 0)).
Proof.
  apply (proj2 check_shape_empty_def). reflexivity.
Defined.

(** X4: when the expected shape ends in the wildcard [-1], the shapes
    [check_shape] accepts are exactly the expected shape with any last
    entry; a tensor [[nf, nloc] + pre + [n]] then passes [check_var] for
    an atomic definition of shape [pre + [-1]], for every [n]. *)
Theorem check_shape_trailing_wildcard (pre : list Z) :
  (forall s,
      check_shape s (pre ++ [-1])%list = OK tt
      <-> exists a, s = (pre ++ [a])%list)
  /\ (forall var_def nf nloc n,
         shape var_def = (pre ++ [-1])%list ->
         atomic var_def = true ->
         check_var {| ndshape := nf :: nloc :: (pre ++ [n])%list |} var_def
         = OK tt).
Proof.
  assert (Hne : (pre ++ [-1])%list <> []).
  { intros H. apply app_eq_nil in H as [_ H]. discriminate. }
  assert (Hs : forall s,
             check_shape s (pre ++ [-1])%list = OK tt
             <-> exists a, s = (pre ++ [a])%list).
  { intros s. rewrite (check_shape_OK_nonempty s _ Hne).
    rewrite last_last, removelast_last. cbn [Z.eqb Pos.eqb].
    split.
    - intros [Hlen Hrm].
      assert (Hsn : s <> []).
      { intros ->. rewrite length_app in Hlen. simpl in Hlen. lia. }
      exists (last s 0). rewrite <- Hrm.
      now apply app_removelast_last.
    - intros [a ->]. rewrite removelast_last, !length_app. auto. }
  split; [ exact Hs |].
  intros var_def nf nloc n Hshape Hat.
  unfold check_var. rewrite Hat, Hshape. cbn [ndshape skipn].
  replace (Nat.eqb (length (nf :: nloc :: (pre ++ [n])%list))
                   (length (pre ++ [-1])%list + 2)) with true.
  - cbn [negb]. apply Hs. eauto.
  - symmetry. apply Nat.eqb_eq. cbn [length]. rewrite !length_app.
    simpl. lia.
Qed.

Lemma check_shape_trailing_wildcard_witness :
  check_var {| ndshape := [10; 192; 250] |}
            {| name := "dos"; shape := [-1]; output_size := -1;
               atomic := true; reducible := true; r_differentiable := false;
               c_differentiable := false; intensive := false; category := 0;
               r_hessian := false; magnetic := false |}
  = OK tt.
Proof.
  apply (proj2 (check_shape_trailing_wildcard []) _ 10 192 250);
    reflexivity.
Defined.

(** ** Derived names *)

(** X5: each of the name functions is injective; a reduced name, a
    coordinate-derivative name, a cell-derivative name and their two
    magnetic twins are never equal to one another; and the Hessian name
    is the coordinate-derivative name of the coordinate-derivative
    name. *)
Theorem derived_names_distinct :
  (forall a b, get_reduce_name a = get_reduce_name b -> a = b)
  /\ (forall a b, get_deriv_name a = get_deriv_name b -> a = b)
  /\ (forall a b, get_deriv_name_mag a = get_deriv_name_mag b -> a = b)
  /\ (forall a b, get_hessian_name a = get_hessian_name b -> a = b)
  /\ (forall a b,
         get_reduce_name a <> fst (get_deriv_name b)
         /\ get_reduce_name a <> snd (get_deriv_name b)
         /\ get_reduce_name a <> fst (get_deriv_name_mag b)
         /\ get_reduce_name a <> snd (get_deriv_name_mag b)
         /\ fst (get_deriv_name a) <> snd (get_deriv_name b)
         /\ fst (get_deriv_name a) <> fst (get_deriv_name_mag b)
         /\ fst (get_deriv_name a) <> snd (get_deriv_name_mag b)
         /\ snd (get_deriv_name a) <> fst (get_deriv_name_mag b)
         /\ snd (get_deriv_name a) <> snd (get_deriv_name_mag b)
         /\ fst (get_deriv_name_mag a) <> snd (get_deriv_name_mag b))
  /\ (forall a,
         get_hessian_name a = fst (get_deriv_name (fst (get_deriv_name a)))).
Proof.
  unfold get_reduce_name, get_deriv_name, get_deriv_name_mag,
    get_hessian_name.
  cbn [fst snd].
  split; [ intros a b H; now apply append_inj_l in H |].
  split; [ intros a b [= H _]; now apply append_inj_l in H |].
  split; [ intros a b [= H _]; now apply append_inj_l in H |].
  split; [ intros a b H; now apply append_inj_l in H |].
  split.
  - intros a b. repeat split; intros H; suffix_clash H.
  - intros a. now rewrite string_append_assoc.
Qed.

Lemma derived_names_distinct_witness : "dipole" = "dipole".
Proof.
  apply (proj1 derived_names_distinct "dipole" "dipole"). reflexivity.
Defined.

(** ** More on the category algebra *)

Lemma lor_pow2_other_bits (c n m : Z) :
  0 <= n -> m <> n -> Z.testbit (Z.lor c (2 ^ n)) m = Z.testbit c m.
Proof.
  intros Hn Hm. rewrite Z.lor_spec, Z.pow2_bits_false by congruence.
  apply orb_false_r.
Qed.

Lemma lor_value_other_bits (c : Z) (op : Op) (m : Z) :
  op_bit op <> Some m ->
  Z.testbit (Z.lor c (op_value op)) m = Z.testbit c m.
Proof.
  destruct op; cbn [op_bit]; intros H.
  - now rewrite Z.lor_0_r.
  - apply (lor_pow2_other_bits c 0 m); [ lia | congruence ].
  - apply (lor_pow2_other_bits c 1 m); [ lia | congruence ].
  - apply (lor_pow2_other_bits c 2 m); [ lia | congruence ].
  - apply (lor_pow2_other_bits c 3 m); [ lia | congruence ].
  - apply (lor_pow2_other_bits c 4 m); [ lia | congruence ].
Qed.

Lemma lor_value_own_bit (c : Z) (op : Op) (n : Z) :
  op_bit op = Some n ->
  Z.testbit (Z.lor c (op_value op)) n = true.
Proof.
  intros H. rewrite Z.lor_spec.
  destruct op; cbn [op_bit] in H; try discriminate H;
    injection H as <-; apply orb_true_r.
Qed.

(** Rewrite a bit of [c | op.value], with the value as a numeral. *)
Ltac other_bit c op m :=
  let L := fresh "L" in
  pose proof (lor_value_other_bits c op m) as L;
  cbn [OutputVariableOperation.value op_bit] in L;
  rewrite L by congruence; clear L.

Ltac own_bit c op n :=
  let L := fresh "L" in
  pose proof (lor_value_own_bit c op n eq_refl) as L;
  cbn [OutputVariableOperation.value] in L;
  rewrite L; clear L.

Lemma apply_operation_bit (v : VarDef) (op : Op) (c : Z) :
  apply_operation v op = OK c ->
  exists n,
    0 <= n <= 3
    /\ Z.testbit (category v) n = false
    /\ c = Z.lor (category v) (2 ^ n).
Proof.
  unfold apply_operation. rewrite !applied_testbit.
  destruct op; try discriminate; cbn [op_bit].
  - destruct (Z.testbit (category v) 0) eqn:B; [ discriminate |].
    intros [= <-]. exists 0. repeat split; solve [ lia | assumption ].
  - destruct (Z.testbit (category v) 1) eqn:B1.
    + destruct (Z.testbit (category v) 3) eqn:B3; [ discriminate |].
      intros [= <-]. exists 3. repeat split; solve [ lia | assumption ].
    + intros [= <-]. exists 1. repeat split; solve [ lia | assumption ].
  - destruct (Z.testbit (category v) 2) eqn:B; [ discriminate |].
    intros [= <-]. exists 2. repeat split; solve [ lia | assumption ].
Qed.

(** X6: every application of [apply_operation] that returns sets
    exactly one bit that was clear, among the bits of [REDU], [DERV_R],
    [DERV_C] and [_SEC_DERV_R], and leaves every other bit as it was; in
    particular it never sets or clears the [MAG] bit. *)
Theorem apply_operation_sets_one_bit (v : VarDef) (op : Op) (c : Z) :
  apply_operation v op = OK c ->
  (exists n,
      0 <= n <= 3
      /\ Z.testbit (category v) n = false
      /\ Z.testbit c n = true
      /\ forall m, m <> n -> Z.testbit c m = Z.testbit (category v) m)
  /\ (forall v',
         category v' = c ->
         check_operation_applied v' OutputVariableOperation.MAG
         = check_operation_applied v OutputVariableOperation.MAG).
Proof.
  intros H. apply apply_operation_bit in H as (n & Hn & Hclear & ->).
  split.
  - exists n. repeat split; try solve [ lia | assumption ].
    + rewrite Z.lor_spec, Z.pow2_bits_true by lia. apply orb_true_r.
    + intros m Hm. apply lor_pow2_other_bits; lia.
  - intros v' Hc. rewrite !applied_testbit. cbn [op_bit]. rewrite Hc.
    apply lor_pow2_other_bits; lia.
Qed.

Lemma apply_operation_sets_one_bit_witness :
  (exists n,
      0 <= n <= 3
      /\ Z.testbit (category (with_category 18)) n = false
      /\ Z.testbit 26 n = true
      /\ forall m, m <> n ->
                   Z.testbit 26 m = Z.testbit (category (with_category 18)) m)
  /\ (forall v',
         category v' = 26 ->
         check_operation_applied v' OutputVariableOperation.MAG
         = check_operation_applied (with_category 18)
             OutputVariableOperation.MAG).
Proof.
  apply (apply_operation_sets_one_bit (with_category 18)
           OutputVariableOperation.DERV_R 26).
  reflexivity.
Defined.

(** X7: [REDU] and [DERV_C] apply at most once: on a definition that
    carries the category returned by one of them, the same operation
    raises "has been applied". *)
Theorem apply_operation_once (v v' : VarDef) (op : Op) (c : Z) :
  op = OutputVariableOperation.REDU \/ op = OutputVariableOperation.DERV_C ->
  apply_operation v op = OK c ->
  category v' = c ->
  apply_operation v' op = Raise (ValueError (OperationApplied op)).
Proof.
  intros Hop H Hc.
  assert (Happ : check_operation_applied v' op = true).
  { unfold check_operation_applied. rewrite Hc. apply Z.eqb_eq.
    unfold apply_operation in H.
    destruct Hop as [-> | ->];
      destruct (check_operation_applied v _); try discriminate H;
      injection H as <-; apply land_lor_own. }
  unfold apply_operation. destruct Hop as [-> | ->]; now rewrite Happ.
Qed.

Lemma apply_operation_once_witness :
  apply_operation (with_category 1) OutputVariableOperation.REDU
  = Raise (ValueError (OperationApplied OutputVariableOperation.REDU)).
Proof.
  apply (apply_operation_once (with_category 0) (with_category 1)
           OutputVariableOperation.REDU 1).
  - now left.
  - reflexivity.
  - reflexivity.
Defined.

(** X8: reducing and differentiating w.r.t. the cell commute: when
    [REDU] and then [DERV_C] return, [DERV_C] and then [REDU] return
    too, with the same final category. *)
Theorem redu_derv_c_commute (v v1 : VarDef) (c1 c2 : Z) :
  apply_operation v OutputVariableOperation.REDU = OK c1 ->
  category v1 = c1 ->
  apply_operation v1 OutputVariableOperation.DERV_C = OK c2 ->
  exists c1',
    apply_operation v OutputVariableOperation.DERV_C = OK c1'
    /\ forall v1',
         category v1' = c1' ->
         apply_operation v1' OutputVariableOperation.REDU = OK c2.
Proof.
  unfold apply_operation. rewrite !applied_testbit. cbn [op_bit].
  destruct (Z.testbit (category v) 0) eqn:B0; [ discriminate |].
  intros [= <-] E1. rewrite E1.
  other_bit (category v) OutputVariableOperation.REDU 2.
  destruct (Z.testbit (category v) 2) eqn:B2; [ discriminate |].
  intros [= <-].
  eexists. split; [ reflexivity |].
  intros v1' E. rewrite applied_testbit. cbn [op_bit]. rewrite E.
  cbn [OutputVariableOperation.value].
  other_bit (category v) OutputVariableOperation.DERV_C 0.
  rewrite B0.
  f_equal. now rewrite <- !Z.lor_assoc.
Qed.

Lemma redu_derv_c_commute_witness :
  exists c1',
    apply_operation (with_category 0) OutputVariableOperation.DERV_C = OK c1'
    /\ forall v1',
         category v1' = c1' ->
         apply_operation v1' OutputVariableOperation.REDU
         = OK (OutputVariableCategory.value OutputVariableCategory.DERV_C_REDU).
Proof.
  apply (redu_derv_c_commute (with_category 0) (with_category 1) 1 5);
    reflexivity.
Defined.

(** X9: [check_deriv] holds on a definition that carries the category
    returned by [DERV_R] or [DERV_C], and [REDU] does not change it. *)
Theorem check_deriv_after (v v' : VarDef) (op : Op) (c : Z) :
  apply_operation v op = OK c ->
  category v' = c ->
  (op <> OutputVariableOperation.REDU -> check_deriv v' = true)
  /\ (op = OutputVariableOperation.REDU -> check_deriv v' = check_deriv v).
Proof.
  unfold check_deriv, apply_operation. rewrite !applied_testbit.
  cbn [op_bit]. intros H Hc. rewrite Hc.
  destruct op; try discriminate H; cbn [op_bit] in H.
  - destruct (Z.testbit (category v) 0); [ discriminate H |].
    injection H as <-. split; [ congruence |]. intros _.
    cbn [OutputVariableOperation.value].
    other_bit (category v) OutputVariableOperation.REDU 1.
    other_bit (category v) OutputVariableOperation.REDU 3.
    other_bit (category v) OutputVariableOperation.REDU 2.
    reflexivity.
  - split; [| discriminate ]. intros _.
    destruct (Z.testbit (category v) 1) eqn:B1.
    + destruct (Z.testbit (category v) 3); [ discriminate H |].
      injection H as <-.
      cbn [OutputVariableOperation.value].
      other_bit (category v) OutputVariableOperation._SEC_DERV_R 1.
      now rewrite B1.
    + injection H as <-.
      cbn [OutputVariableOperation.value].
      own_bit (category v) OutputVariableOperation.DERV_R 1.
      reflexivity.
  - split; [| discriminate ]. intros _.
    destruct (Z.testbit (category v) 2); [ discriminate H |].
    injection H as <-.
    cbn [OutputVariableOperation.value].
    own_bit (category v) OutputVariableOperation.DERV_C 2.
    now rewrite !orb_true_r.
Qed.

Lemma check_deriv_after_witness :
  (OutputVariableOperation.DERV_C <> OutputVariableOperation.REDU ->
   check_deriv (with_category 5) = true)
  /\ (OutputVariableOperation.DERV_C = OutputVariableOperation.REDU ->
      check_deriv (with_category 5) = check_deriv (with_category 1)).
Proof.
  apply (check_deriv_after (with_category 1) (with_category 5)
           OutputVariableOperation.DERV_C 5);
    reflexivity.
Defined.

(** ** [do_reduce] *)

Lemma foldM_cases {A S : Type} (f : S -> A -> result S) (ok : A -> bool)
    (g : S -> A -> S) :
  (forall s a, if ok a then f s a = OK (g s a) else raises (f s a)) ->
  forall l s,
    if forallb ok l
    then foldM f l s = OK (fold_left g l s)
    else raises (foldM f l s).
Proof.
  intros Hf l. induction l as [| a l IH]; intros s; simpl.
  - reflexivity.
  - specialize (Hf s a). destruct (ok a); simpl.
    + rewrite Hf. simpl. apply IH.
    + destruct Hf as [e ->]. now exists e.
Qed.

Lemma fold_left_set_all {A V : Type} (emits : A -> list (string * V))
    (l : list A) (d : PyDict.t V) :
  fold_left (fun s a => PyDict.set_all s (emits a)) l d
  = PyDict.set_all d (flat_map emits l).
Proof.
  revert d. induction l as [| a l IH]; intros d; simpl.
  - reflexivity.
  - rewrite IH. now rewrite set_all_app.
Qed.

Lemma init_redu (nm : string) (shp : list Z) (cat : Z) :
  OutputVariableDef.init nm shp false false false false cat false false false
  = OK {| name := nm; shape := shp; output_size := size_loop shp;
          atomic := false; reducible := false; r_differentiable := false;
          c_differentiable := false; intensive := false; category := cat;
          r_hessian := false; magnetic := false |}.
Proof.
  reflexivity.
Qed.

Lemma do_reduce_step_cases (acc : PyDict.t VarDef) (item : string * VarDef) :
  if reducible_ok (snd item)
  then do_reduce_step acc item = OK (PyDict.set_all acc (emits_redu item))
  else raises (do_reduce_step acc item).
Proof.
  destruct item as [kk vv].
  unfold reducible_ok, do_reduce_step, emits_redu, redu_entry,
    apply_operation, get_reduce_name, raises.
  cbn [snd].
  destruct (reducible vv); [| reflexivity ].
  destruct (check_operation_applied vv OutputVariableOperation.REDU);
    cbn [negb orb bind].
  - eexists; reflexivity.
  - rewrite init_redu. reflexivity.
Qed.

Lemma do_reduce_cases (d : PyDict.t VarDef) :
  if forallb (fun item => reducible_ok (snd item)) d
  then do_reduce d = OK (PyDict.set_all PyDict.empty (flat_map emits_redu d))
  else raises (do_reduce d).
Proof.
  unfold do_reduce, PyDict.items.
  pose proof (foldM_cases do_reduce_step
                (fun item => reducible_ok (snd item))
                (fun s a => PyDict.set_all s (emits_redu a))
                do_reduce_step_cases d PyDict.empty) as H.
  now rewrite fold_left_set_all in H.
Qed.

Lemma do_reduce_OK (d r : PyDict.t VarDef) :
  do_reduce d = OK r ->
  forallb (fun item => reducible_ok (snd item)) d = true
  /\ r = PyDict.set_all PyDict.empty (flat_map emits_redu d).
Proof.
  intros H. pose proof (do_reduce_cases d) as Hc.
  destruct (forallb _ d).
  - rewrite Hc in H. injection H as <-. auto.
  - destruct Hc as [e He]. congruence.
Qed.

Lemma emits_redu_spec (e : string * VarDef) (kk : string) (vv : VarDef) :
  In e (emits_redu (kk, vv)) ->
  e = (kk ++ "_redu", redu_entry (kk ++ "_redu") vv)
  /\ reducible vv = true.
Proof.
  unfold emits_redu. destruct (reducible vv); simpl; intuition auto.
Qed.

Lemma redu_lookup (d r : PyDict.t VarDef) (k : string) (v : VarDef) :
  PyDict.wf d ->
  do_reduce d = OK r ->
  PyDict.get d k = Some v ->
  PyDict.get r (k ++ "_redu")
  = if reducible v then Some (redu_entry (k ++ "_redu") v) else None.
Proof.
  intros Hwf Hr Hget. destruct (do_reduce_OK _ _ Hr) as [_ ->].
  destruct (reducible v) eqn:Hred.
  - destruct (wf_split _ _ _ Hwf Hget) as (d1 & d2 & -> & _ & Hk2).
    apply get_emitted with (pre := []) (post := []).
    + unfold emits_redu. now rewrite Hred.
    + intros e [].
    + intros [k' v'] e Hb He.
      pose proof (key_not_in_keys _ _ _ _ Hk2 Hb) as Hne.
      apply emits_redu_spec in He as [-> _]. simpl. intros H.
      apply append_inj_l in H. contradiction.
  - apply get_not_emitted. intros [k' v'] e Hb He.
    apply emits_redu_spec in He as [-> Hr']. simpl. intros H.
    apply append_inj_l in H. subst k'.
    apply (wf_In_get _ _ _ Hwf) in Hb. congruence.
Qed.

(** X10: in the mapping that [do_reduce] returns for a dict, a
    reducible variable [k] has the entry [k + "_redu"]: same shape and
    size, not atomic, not reducible, not differentiable, category
    [category | REDU]; a variable that is not reducible has none. *)
Theorem do_reduce_entry (d r : PyDict.t VarDef) (k : string) (v : VarDef) :
  PyDict.wf d ->
  do_reduce d = OK r ->
  PyDict.get d k = Some v ->
  (reducible v = true ->
   exists w,
     PyDict.get r (get_reduce_name k) = Some w
     /\ name w = get_reduce_name k
     /\ shape w = shape v
     /\ size w = prod (shape v)
     /\ atomic w = false
     /\ reducible w = false
     /\ r_differentiable w = false
     /\ c_differentiable w = false
     /\ category w = Z.lor (category v) 1
     /\ check_operation_applied w OutputVariableOperation.REDU = true)
  /\ (reducible v = false -> PyDict.get r (get_reduce_name k) = None).
Proof.
  intros Hwf Hr Hget.
  pose proof (redu_lookup d r k v Hwf Hr Hget) as Hl.
  unfold get_reduce_name. split; intros Hred; rewrite Hred in Hl.
  - eexists. split; [ exact Hl |].
    unfold redu_entry, size. cbn [name shape output_size atomic reducible
      r_differentiable c_differentiable category].
    repeat split; try reflexivity.
    + apply size_loop_prod.
    + unfold check_operation_applied. cbn [category].
      apply Z.eqb_eq. apply land_lor_own.
  - exact Hl.
Qed.

Lemma do_reduce_entry_witness :
  exists w,
    PyDict.get [("energy_redu", redu_entry "energy_redu" energy_def)]
               (get_reduce_name "energy") = Some w
    /\ name w = get_reduce_name "energy"
    /\ shape w = shape energy_def
    /\ size w = prod (shape energy_def)
    /\ atomic w = false
    /\ reducible w = false
    /\ r_differentiable w = false
    /\ c_differentiable w = false
    /\ category w = Z.lor (category energy_def) 1
    /\ check_operation_applied w OutputVariableOperation.REDU = true.
Proof.
  apply (proj1 (do_reduce_entry [("energy", energy_def)]
                  [("energy_redu", redu_entry "energy_redu" energy_def)]
                  "energy" energy_def
                  ltac:(repeat constructor; intros [])
                  eq_refl eq_refl)).
  reflexivity.
Defined.

(** X11: [do_reduce] returns exactly when no reducible variable of the
    dict already has the [REDU] bit in its category. *)
Theorem do_reduce_returns_iff (d : PyDict.t VarDef) :
  (exists r, do_reduce d = OK r)
  <-> (forall k v,
          In (k, v) d ->
          reducible v = true ->
          check_operation_applied v OutputVariableOperation.REDU = false).
Proof.
  pose proof (do_reduce_cases d) as Hc.
  destruct (forallb (fun item => reducible_ok (snd item)) d) eqn:Hall.
  - split; [| eauto ]. intros _ k v Hin Hred.
    rewrite forallb_forall in Hall. specialize (Hall _ Hin).
    unfold reducible_ok in Hall. cbn [snd] in Hall. rewrite Hred in Hall.
    now destruct (check_operation_applied v OutputVariableOperation.REDU).
  - split.
    + intros [r Hr]. destruct Hc as [e He]. congruence.
    + intros H. exfalso.
      assert (Ht : forallb (fun item => reducible_ok (snd item)) d = true).
      { apply forallb_forall. intros [k v] Hin. unfold reducible_ok.
        cbn [snd]. destruct (reducible v) eqn:Hred; [| reflexivity ].
        now rewrite (H k v Hin Hred). }
      congruence.
Qed.

Lemma do_reduce_returns_iff_witness :
  exists r, do_reduce [("energy", energy_def)] = OK r.
Proof.
  apply (proj2 (do_reduce_returns_iff [("energy", energy_def)])).
  intros k v [[= <- <-] | []] _. reflexivity.
Defined.

(** X12: nothing can be reduced twice: every entry that [do_reduce]
    returns is not reducible, so [do_reduce] of what [do_reduce]
    returned is the empty mapping. *)
Theorem do_reduce_twice (d r : PyDict.t VarDef) :
  do_reduce d = OK r ->
  (forall k w, In (k, w) r -> reducible w = false)
  /\ do_reduce r = OK PyDict.empty.
Proof.
  intros Hr. destruct (do_reduce_OK _ _ Hr) as [_ ->].
  assert (Hall : forall k w,
             In (k, w) (PyDict.set_all PyDict.empty (flat_map emits_redu d)) ->
             reducible w = false).
  { intros k w Hin. apply In_set_all in Hin as [[] | Hin].
    apply in_flat_map in Hin as ([k' v'] & _ & He).
    apply emits_redu_spec in He as [[= -> ->] _]. reflexivity. }
  split; [ exact Hall |].
  unfold do_reduce, PyDict.items.
  generalize (PyDict.set_all PyDict.empty (flat_map emits_redu d)) Hall.
  intros l Hl. generalize (@PyDict.empty VarDef).
  induction l as [| [k w] l IH]; intros acc; simpl.
  - reflexivity.
  - rewrite (Hl k w (or_introl eq_refl)). simpl.
    apply IH. intros k' w' Hin. apply (Hl k' w'). now right.
Qed.

Lemma do_reduce_twice_witness :
  (forall k w,
      In (k, w) [("energy_redu", redu_entry "energy_redu" energy_def)] ->
      reducible w = false)
  /\ do_reduce [("energy_redu", redu_entry "energy_redu" energy_def)]
     = OK PyDict.empty.
Proof.
  apply (do_reduce_twice [("energy", energy_def)]). reflexivity.
Defined.

(** ** The keys of the derived mappings, in order *)

Lemma keys_set_all_fresh {V : Type} (es : list (string * V))
    (d : PyDict.t V) :
  NoDup (PyDict.keys d ++ map fst es)%list ->
  PyDict.keys (PyDict.set_all d es) = (PyDict.keys d ++ map fst es)%list.
Proof.
  revert d. induction es as [| [k v] es IH]; intros d Hnd; simpl.
  - now rewrite app_nil_r.
  - assert (Hk : PyDict.keys (PyDict.set d k v) = (PyDict.keys d ++ [k])%list).
    { rewrite keys_set.
      destruct (in_dec string_dec k (PyDict.keys d)) as [Hin | _];
        [| reflexivity ].
      exfalso. simpl in Hnd. apply NoDup_remove_2 in Hnd.
      apply Hnd. apply in_or_app. now left. }
    change (PyDict.keys
              (PyDict.set_all (PyDict.set d k v) es)
            = (PyDict.keys d ++ k :: map fst es)%list).
    rewrite IH; rewrite Hk, <- app_assoc; [ reflexivity | exact Hnd ].
Qed.

Lemma NoDup_emitted_keys {V : Type}
    (emits : string * VarDef -> list (string * V)) (d : PyDict.t VarDef) :
  PyDict.wf d ->
  (forall item, NoDup (map fst (emits item))) ->
  (forall k v k' v' e e',
      k <> k' -> In e (emits (k, v)) -> In e' (emits (k', v')) ->
      fst e <> fst e') ->
  NoDup (map fst (flat_map emits d)).
Proof.
  unfold PyDict.wf, PyDict.keys. intros Hwf Hone Htwo.
  induction d as [| [k v] d IH]; simpl.
  - constructor.
  - inversion Hwf as [| ? ? Hk Hd]; subst.
    rewrite map_app. apply NoDup_app; [ apply Hone | now apply IH |].
    intros x Hx Hx'.
    apply in_map_iff in Hx as (e & <- & He).
    apply in_map_iff in Hx' as (e' & Heq & He').
    apply in_flat_map in He' as ([k' v'] & Hin & He').
    apply (Htwo k v k' v' e e'); auto.
    intros ->. apply Hk. apply (in_map fst) in Hin. exact Hin.
Qed.

Lemma keys_of_emitted {V : Type}
    (emits : string * VarDef -> list (string * V)) (d : PyDict.t VarDef) :
  PyDict.wf d ->
  (forall item, NoDup (map fst (emits item))) ->
  (forall k v k' v' e e',
      k <> k' -> In e (emits (k, v)) -> In e' (emits (k', v')) ->
      fst e <> fst e') ->
  PyDict.keys (PyDict.set_all PyDict.empty (flat_map emits d))
  = map fst (flat_map emits d).
Proof.
  intros Hwf Hone Htwo.
  apply (keys_set_all_fresh (flat_map emits d) PyDict.empty).
  now apply NoDup_emitted_keys.
Qed.

(** X13: for a dict, the keys of the mapping [do_reduce] returns are the
    [_redu] names of the reducible variables, in the order of the dict;
    the keys of the two mappings [do_derivative] returns are, variable
    by variable in that order, [_derv_r], [_derv_r_mag], [_derv_c_mag]
    (those that apply) for the first and [_derv_c] for the second. *)
Theorem derived_keys_in_order (d : PyDict.t VarDef) :
  PyDict.wf d ->
  (forall r,
      do_reduce d = OK r ->
      PyDict.keys r
      = map get_reduce_name
          (PyDict.keys (filter (fun item => reducible (snd item)) d)))
  /\ (forall dr dc,
         do_derivative d = OK (dr, dc) ->
         PyDict.keys dr = flat_map derv_r_names d
         /\ PyDict.keys dc
            = map (fun k => snd (get_deriv_name k))
                (PyDict.keys
                   (filter (fun item => c_differentiable (snd item)) d))).
Proof.
  intros Hwf. split.
  - intros r Hr. destruct (do_reduce_OK _ _ Hr) as [_ ->].
    rewrite keys_of_emitted; [| assumption | |].
    + unfold PyDict.keys, get_reduce_name. clear Hwf Hr.
      induction d as [| [k v] d IH]; simpl; [ reflexivity |].
      destruct (reducible v); simpl; now rewrite IH.
    + intros [k v]. unfold emits_redu.
      destruct (reducible v); repeat constructor; intros [].
    + intros k v k' v' e e' Hne He He' H.
      apply emits_redu_spec in He as [-> _].
      apply emits_redu_spec in He' as [-> _].
      simpl in H. apply append_inj_l in H. contradiction.
  - intros dr dc Hd. destruct (do_derivative_OK _ _ _ Hd) as [-> ->].
    split.
    + rewrite keys_of_emitted; [| assumption | |].
      * clear Hwf Hd. induction d as [| [k v] d IH]; simpl; [ reflexivity |].
        rewrite map_app, IH. f_equal.
        unfold emits_r, emits_r1, emits_rc.
        destruct (r_differentiable v), (c_differentiable v), (magnetic v);
          reflexivity.
      * intros [k v]. unfold emits_r, emits_r1, emits_rc.
        destruct (r_differentiable v), (c_differentiable v), (magnetic v);
          simpl; repeat constructor; simpl;
          intros H; repeat (destruct H as [H | H]; [ suffix_clash H |]);
          exact H.
      * intros k v k' v' e e' Hne He He' H.
        apply emits_r_spec in He as [[-> _] | [[-> _] | [-> _]]];
          apply emits_r_spec in He' as [[-> _] | [[-> _] | [-> _]]];
          simpl in H;
          solve [ apply append_inj_l in H; contradiction | suffix_clash H ].
    + rewrite keys_of_emitted; [| assumption | |].
      * unfold PyDict.keys, get_deriv_name. clear Hwf Hd.
        induction d as [| [k v] d IH]; simpl; [ reflexivity |].
        destruct (c_differentiable v); simpl; now rewrite IH.
      * intros [k v]. unfold emits_c.
        destruct (c_differentiable v); repeat constructor; intros [].
      * intros k v k' v' e e' Hne He He' H.
        apply emits_c_spec in He as [-> _].
        apply emits_c_spec in He' as [-> _].
        simpl in H. apply append_inj_l in H. contradiction.
Qed.

Lemma derived_keys_in_order_witness :
  PyDict.keys spin_derv_r
  = ["energy_derv_r"; "energy_derv_r_mag"; "energy_derv_c_mag"]
  /\ PyDict.keys spin_derv_c = ["energy_derv_c"].
Proof.
  apply (proj2 (derived_keys_in_order spin_data
                  ltac:(repeat constructor; intros []))
               spin_derv_r spin_derv_c).
  reflexivity.
Defined.

(** ** [do_mask] *)

Lemma foldM_do_mask (l : list (string * VarDef)) :
  foldM do_mask_step l
        [("mask", mask_entry "mask"); ("mask_mag", mask_entry "mask_mag")]
  = OK [("mask", mask_entry "mask"); ("mask_mag", mask_entry "mask_mag")].
Proof.
  induction l as [| [k v] l IH]; simpl; [ reflexivity |].
  destruct (magnetic v); simpl; exact IH.
Qed.

(** X14: [do_mask] never raises; it returns [mask] and, exactly when
    some variable of the dict is magnetic, [mask_mag] after it, both
    atomic, of shape [[1]] and category [OUT]. *)
Theorem do_mask_spec (d : PyDict.t VarDef) :
  do_mask d
  = OK (("mask", mask_entry "mask")
          :: (if existsb (fun item => magnetic (snd item)) d
              then [("mask_mag", mask_entry "mask_mag")]
              else [])).
Proof.
  unfold do_mask, PyDict.items. cbn [bind OutputVariableDef.init andb negb].
  change (PyDict.set PyDict.empty "mask"
            {| name := "mask"; shape := [1];
               output_size := size_loop [1]; atomic := true;
               reducible := false; r_differentiable := false;
               c_differentiable := false; intensive := false;
               category :=
                 OutputVariableCategory.value OutputVariableCategory.OUT;
               r_hessian := false; magnetic := false |})
    with [("mask", mask_entry "mask")].
  induction d as [| [k v] d IH]; simpl; [ reflexivity |].
  destruct (magnetic v); simpl.
  - apply foldM_do_mask.
  - exact IH.
Qed.

(** ** [FittingOutputDef] *)

Lemma find_app {A : Type} (p : A -> bool) (l1 l2 : list A) :
  find p (l1 ++ l2)
  = match find p l1 with
    | Some a => Some a
    | None => find p l2
    end.
Proof.
  induction l1 as [| a l1 IH]; simpl; [ reflexivity |].
  destruct (p a); [ reflexivity | exact IH ].
Qed.

Lemma get_fold_set (defs : list VarDef) (d : PyDict.t VarDef) (k : string) :
  PyDict.get (fold_left (fun d vv => PyDict.set d (name vv) vv) defs d) k
  = match find (fun vv => String.eqb (name vv) k) (rev defs) with
    | Some vv => Some vv
    | None => PyDict.get d k
    end.
Proof.
  revert d. induction defs as [| a defs IH]; intros d; simpl.
  - reflexivity.
  - rewrite IH, find_app. simpl.
    destruct (find _ (rev defs)); [ reflexivity |].
    destruct (String.eqb_spec (name a) k) as [<- | Hne].
    + apply get_set_eq.
    + now apply get_set_neq.
Qed.

(** X15: a [FittingOutputDef] built from a list maps a name to the last
    definition of the list that has this name, and raises [KeyError] for
    a name that no definition has; every definition is stored under its
    own name. *)
Theorem FittingOutputDef_last_wins (defs : list VarDef) :
  (forall k,
      FittingOutputDef.getitem (FittingOutputDef.init defs) k
      = match find (fun vv => String.eqb (name vv) k) (rev defs) with
        | Some vv => OK vv
        | None => Raise (KeyError k)
        end)
  /\ (forall k vv,
         FittingOutputDef.getitem (FittingOutputDef.init defs) k = OK vv ->
         name vv = k /\ In vv defs)
  /\ (forall k,
         In k (FittingOutputDef.keys (FittingOutputDef.init defs))
         <-> exists vv, In vv defs /\ name vv = k).
Proof.
  assert (Hget : forall k,
             PyDict.get (FittingOutputDef.var_defs
                           (FittingOutputDef.init defs)) k
             = find (fun vv => String.eqb (name vv) k) (rev defs)).
  { intros k. unfold FittingOutputDef.init. cbn [FittingOutputDef.var_defs].
    rewrite get_fold_set. now destruct (find _ (rev defs)). }
  assert (Hfind : forall k vv,
             find (fun vv => String.eqb (name vv) k) (rev defs) = Some vv ->
             name vv = k /\ In vv defs).
  { intros k vv H. apply find_some in H as [Hin Hn].
    apply String.eqb_eq in Hn. apply in_rev in Hin. auto. }
  split; [| split ].
  - intros k. unfold FittingOutputDef.getitem, PyDict.getitem.
    rewrite Hget. now destruct (find _ (rev defs)).
  - intros k vv H. unfold FittingOutputDef.getitem, PyDict.getitem in H.
    rewrite Hget in H.
    destruct (find _ (rev defs)) as [w |] eqn:E; [| discriminate H ].
    injection H as <-. now apply Hfind.
  - intros k. unfold FittingOutputDef.keys. split.
    + intros Hin.
      destruct (PyDict.get (FittingOutputDef.var_defs
                              (FittingOutputDef.init defs)) k)
        as [vv |] eqn:E.
      * rewrite Hget in E. apply Hfind in E as [Hn Hv]. eauto.
      * apply get_None_keys in E. contradiction.
    + intros (vv & Hin & Hn).
      destruct (find (fun vv => String.eqb (name vv) k) (rev defs))
        as [w |] eqn:E.
      * rewrite <- Hget in E. eapply get_Some_keys; eassumption.
      * exfalso. apply in_rev in Hin.
        pose proof (find_none _ _ E vv Hin) as Hf. cbv beta in Hf.
        apply String.eqb_neq in Hf. contradiction.
Qed.

Lemma FittingOutputDef_last_wins_witness :
  name (with_category 7) = "x"
  /\ In (with_category 7) [with_category 3; with_category 7].
Proof.
  apply (proj1 (proj2 (FittingOutputDef_last_wins
                         [with_category 3; with_category 7]))
               "x" (with_category 7)).
  reflexivity.
Defined.

(** ** [ModelOutputDef] *)

Lemma In_keys_set {V : Type} (d : PyDict.t V) (k x : string) (v : V) :
  In x (PyDict.keys (PyDict.set d k v)) <-> In x (PyDict.keys d) \/ x = k.
Proof.
  rewrite keys_set.
  destruct (in_dec string_dec k (PyDict.keys d)) as [Hin | Hin].
  - split; [ auto | intros [H | ->]; assumption ].
  - rewrite in_app_iff. simpl. intuition congruence.
Qed.

Lemma In_keys_set_all {V : Type} (es : list (string * V)) (d : PyDict.t V)
    (x : string) :
  In x (PyDict.keys (PyDict.set_all d es))
  <-> In x (PyDict.keys d) \/ In x (map fst es).
Proof.
  revert d. induction es as [| [k v] es IH]; intros d; simpl.
  - tauto.
  - rewrite IH, In_keys_set. intuition congruence.
Qed.

Lemma In_keys_update {V : Type} (d e : PyDict.t V) (x : string) :
  In x (PyDict.keys (PyDict.update d e))
  <-> In x (PyDict.keys d) \/ In x (PyDict.keys e).
Proof.
  apply In_keys_set_all.
Qed.

Lemma get_update {V : Type} (d e : PyDict.t V) (x : string) :
  PyDict.wf e ->
  PyDict.get (PyDict.update d e) x
  = orelse (PyDict.get e x) (PyDict.get d x).
Proof.
  intros Hwf. unfold PyDict.update, PyDict.items.
  destruct (PyDict.get e x) as [v |] eqn:E; cbn [orelse].
  - destruct (wf_split _ _ _ Hwf E) as (e1 & e2 & -> & _ & H2).
    apply get_set_all_last. intros [k' v'] Hin Heq. simpl in Heq. subst k'.
    apply H2. apply (in_map fst) in Hin. exact Hin.
  - apply get_set_all_notin. intros [k' v'] Hin Heq. simpl in Heq. subst k'.
    apply get_None_keys in E. apply E.
    apply (in_map fst) in Hin. exact Hin.
Qed.

Lemma ModelOutputDef_init_parts (fit : FittingOutputDef.t)
    (m : ModelOutputDef.t) :
  ModelOutputDef.init fit = OK m ->
  ModelOutputDef.def_outp m = fit
  /\ do_reduce (FittingOutputDef.get_data fit) = OK (ModelOutputDef.def_redu m)
  /\ do_derivative (FittingOutputDef.get_data fit)
     = OK (ModelOutputDef.def_derv_r m, ModelOutputDef.def_derv_c m)
  /\ (exists x,
         do_derivative (ModelOutputDef.def_derv_r m)
         = OK (ModelOutputDef.def_hess_r m, x))
  /\ do_reduce (ModelOutputDef.def_derv_c m)
     = OK (ModelOutputDef.def_derv_c_redu m)
  /\ do_mask (FittingOutputDef.get_data fit) = OK (ModelOutputDef.def_mask m)
  /\ ModelOutputDef.var_defs m
     = PyDict.update
         (PyDict.update
            (PyDict.update
               (PyDict.update
                  (PyDict.update
                     (PyDict.update
                        (PyDict.update PyDict.empty
                           (FittingOutputDef.get_data fit))
                        (ModelOutputDef.def_redu m))
                     (ModelOutputDef.def_derv_c m))
                  (ModelOutputDef.def_derv_r m))
               (ModelOutputDef.def_derv_c_redu m))
            (ModelOutputDef.def_hess_r m))
         (ModelOutputDef.def_mask m).
Proof.
  unfold ModelOutputDef.init. intros H.
  apply bind_OK_inv in H as (redu & Hredu & H).
  apply bind_OK_inv in H as ([dr dc] & Hd & H).
  apply bind_OK_inv in H as ([h x] & Hh & H).
  apply bind_OK_inv in H as (cr & Hcr & H).
  apply bind_OK_inv in H as (mk & Hmk & H).
  injection H as <-. cbn. repeat split; eauto.
Qed.

Lemma applied_REDU_derv_c_entry (nm : string) (vv : VarDef) (mag : bool) :
  check_operation_applied (derv_c_entry nm vv mag) OutputVariableOperation.REDU
  = check_operation_applied vv OutputVariableOperation.REDU.
Proof.
  rewrite !applied_testbit. cbn [op_bit].
  unfold derv_c_entry, derv_entry. cbn [category].
  apply lor_value_other_bits. cbn [op_bit]. congruence.
Qed.

Lemma model_ok_spec (vv : VarDef) :
  model_ok vv = true
  <-> (reducible vv = true \/ c_differentiable vv = true ->
       check_operation_applied vv OutputVariableOperation.REDU = false)
      /\ (r_differentiable vv = true ->
          check_operation_applied vv OutputVariableOperation.DERV_R = true ->
          check_operation_applied vv OutputVariableOperation._SEC_DERV_R
          = false)
      /\ (c_differentiable vv = true ->
          r_differentiable vv = true
          /\ check_operation_applied vv OutputVariableOperation.DERV_C
             = false).
Proof.
  unfold model_ok, reducible_ok, derivable.
  destruct (reducible vv), (r_differentiable vv), (c_differentiable vv),
    (check_operation_applied vv OutputVariableOperation.REDU),
    (check_operation_applied vv OutputVariableOperation.DERV_R),
    (check_operation_applied vv OutputVariableOperation._SEC_DERV_R),
    (check_operation_applied vv OutputVariableOperation.DERV_C);
    cbn; intuition (try discriminate; try congruence).
Qed.

Lemma model_ok_parts (vv : VarDef) :
  model_ok vv = true ->
  reducible_ok vv = true
  /\ derivable vv = true
  /\ (c_differentiable vv = true ->
      check_operation_applied vv OutputVariableOperation.REDU = false).
Proof.
  unfold model_ok. intros H.
  apply andb_true_iff in H as [H H3]. apply andb_true_iff in H as [H1 H2].
  repeat split; try assumption.
  intros Hc. rewrite Hc in H3. cbn in H3.
  now destruct (check_operation_applied vv OutputVariableOperation.REDU).
Qed.

Lemma ModelOutputDef_init_returns (fit : FittingOutputDef.t) :
  forallb (fun item => model_ok (snd item)) (FittingOutputDef.get_data fit)
  = true ->
  exists m, ModelOutputDef.init fit = OK m.
Proof.
  intros Hall. rewrite forallb_forall in Hall.
  set (d := FittingOutputDef.get_data fit) in *.
  assert (H1 : forallb (fun item => reducible_ok (snd item)) d = true).
  { apply forallb_forall. intros item Hin.
    exact (proj1 (model_ok_parts _ (Hall item Hin))). }
  assert (H2 : forallb (fun item => derivable (snd item)) d = true).
  { apply forallb_forall. intros item Hin.
    exact (proj1 (proj2 (model_ok_parts _ (Hall item Hin)))). }
  pose proof (do_reduce_cases d) as Hr. rewrite H1 in Hr.
  pose proof (do_derivative_cases d) as Hd. rewrite H2 in Hd.
  destruct (second_pass_returns _ _ _ Hd) as (h & x & Hh).
  pose proof (do_reduce_cases
                (PyDict.set_all PyDict.empty (flat_map emits_c d))) as Hcr.
  match type of Hcr with
  | if ?b then _ else _ => assert (H3 : b = true)
  end.
  { apply forallb_forall. intros e He.
    apply In_set_all in He as [[] | He].
    apply in_flat_map in He as ([k v] & Hin & He).
    apply emits_c_spec in He as [-> Hc]. cbn [snd].
    unfold reducible_ok. rewrite applied_REDU_derv_c_entry.
    pose proof (proj2 (proj2 (model_ok_parts v (Hall _ Hin))) Hc) as Hx.
    rewrite Hx. apply orb_true_r. }
  rewrite H3 in Hcr.
  unfold ModelOutputDef.init. fold d.
  rewrite Hr. cbn [bind]. rewrite Hd. cbn [bind]. rewrite Hh. cbn [bind].
  rewrite Hcr. cbn [bind]. rewrite do_mask_spec. cbn [bind].
  eexists. reflexivity.
Qed.

Lemma ModelOutputDef_init_needs (fit : FittingOutputDef.t)
    (m : ModelOutputDef.t) :
  PyDict.wf (FittingOutputDef.get_data fit) ->
  ModelOutputDef.init fit = OK m ->
  forallb (fun item => model_ok (snd item)) (FittingOutputDef.get_data fit)
  = true.
Proof.
  intros Hwf Hm.
  apply ModelOutputDef_init_parts in Hm
    as (_ & Hr & Hd & _ & Hcr & _ & _).
  destruct (do_reduce_OK _ _ Hr) as [H1 _].
  pose proof (do_derivative_cases (FittingOutputDef.get_data fit)) as Hc.
  destruct (forallb (fun item => derivable (snd item))
                    (FittingOutputDef.get_data fit)) eqn:H2;
    [| destruct Hc as [e He]; congruence ].
  destruct (do_reduce_OK _ _ Hcr) as [H3 _].
  rewrite forallb_forall in H1, H2, H3.
  apply forallb_forall. intros [k v] Hin.
  unfold model_ok.
  rewrite (H1 _ Hin), (H2 _ Hin). cbn [andb snd].
  destruct (c_differentiable v) eqn:Hcd; [| reflexivity ].
  pose proof (derv_c_lookup _ _ _ Hwf Hd k v (wf_In_get _ _ _ Hwf Hin)) as Hl.
  rewrite Hcd in Hl. apply get_In in Hl. specialize (H3 _ Hl).
  cbn [snd] in H3. unfold reducible_ok in H3.
  rewrite applied_REDU_derv_c_entry in H3.
  unfold derv_c_entry, derv_entry in H3. cbn [reducible negb orb] in H3.
  now rewrite H3.
Qed.

(** X16: for a dict of base definitions, [ModelOutputDef] can be built
    exactly when, for every base variable: its category has no [REDU]
    bit if it is reducible or [c_differentiable]; its category does not
    have both the [DERV_R] and the [_SEC_DERV_R] bit if it is
    [r_differentiable]; and, if it is [c_differentiable], it is
    [r_differentiable] and its category has no [DERV_C] bit. *)
Theorem ModelOutputDef_init_returns_iff (fit : FittingOutputDef.t) :
  PyDict.wf (FittingOutputDef.get_data fit) ->
  ((exists m, ModelOutputDef.init fit = OK m)
   <-> forall k vv,
         In (k, vv) (FittingOutputDef.get_data fit) ->
         (reducible vv = true \/ c_differentiable vv = true ->
          check_operation_applied vv OutputVariableOperation.REDU = false)
         /\ (r_differentiable vv = true ->
             check_operation_applied vv OutputVariableOperation.DERV_R = true ->
             check_operation_applied vv OutputVariableOperation._SEC_DERV_R
             = false)
         /\ (c_differentiable vv = true ->
             r_differentiable vv = true
             /\ check_operation_applied vv OutputVariableOperation.DERV_C
                = false)).
Proof.
  intros Hwf. split.
  - intros [m Hm] k vv Hin.
    pose proof (ModelOutputDef_init_needs fit m Hwf Hm) as Hall.
    rewrite forallb_forall in Hall.
    apply model_ok_spec. exact (Hall _ Hin).
  - intros H. apply ModelOutputDef_init_returns.
    apply forallb_forall. intros [k vv] Hin.
    apply model_ok_spec. exact (H k vv Hin).
Qed.

Lemma ModelOutputDef_init_returns_iff_witness :
  exists m,
    ModelOutputDef.init {| FittingOutputDef.var_defs := spin_data |} = OK m.
Proof.
  apply (proj2 (ModelOutputDef_init_returns_iff
                  {| FittingOutputDef.var_defs := spin_data |}
                  ltac:(repeat constructor; intros []))).
  intros k vv [[= <- <-] | []].
  repeat split; intros; reflexivity.
Defined.

Lemma In_fold_set (defs : list VarDef) (d : PyDict.t VarDef)
    (e : string * VarDef) :
  In e (fold_left (fun d vv => PyDict.set d (name vv) vv) defs d) ->
  In e d \/ In (snd e) defs.
Proof.
  revert d. induction defs as [| a defs IH]; intros d; simpl.
  - auto.
  - intros H. apply IH in H as [H | H]; [| auto ].
    apply In_set in H as [H | ->]; auto.
Qed.

Lemma applied_category_OUT (vv : VarDef) (op : Op) :
  category vv = 0 ->
  op <> OutputVariableOperation._NONE ->
  check_operation_applied vv op = false.
Proof.
  intros Hc Hop. unfold check_operation_applied. rewrite Hc.
  destruct op; try reflexivity. congruence.
Qed.

(** X17: from definitions that the constructor returned with the
    default category [OUT], whatever their names, shapes and flags,
    [ModelOutputDef] can always be built. *)
Theorem ModelOutputDef_init_of_constructed (defs : list VarDef) :
  (forall vv,
      In vv defs ->
      exists nm shp red rd cd atm rh mag int,
        OutputVariableDef.init nm shp red rd cd atm
          (OutputVariableCategory.value OutputVariableCategory.OUT)
          rh mag int = OK vv) ->
  exists m, ModelOutputDef.init (FittingOutputDef.init defs) = OK m.
Proof.
  intros H. apply ModelOutputDef_init_returns.
  apply forallb_forall. intros [k vv] Hin.
  unfold FittingOutputDef.get_data, FittingOutputDef.init in Hin.
  cbn [FittingOutputDef.var_defs] in Hin.
  apply In_fold_set in Hin as [[] | Hin]. cbn [snd] in *.
  destruct (H vv Hin) as (nm & shp & red & rd & cd & atm & rh & mag & int & Hv).
  pose proof (init_cases nm shp red rd cd atm
                (OutputVariableCategory.value OutputVariableCategory.OUT)
                rh mag int) as Hc.
  destruct (violated red rd cd atm rh int) eqn:Hviol.
  - destruct Hc as [e He]. congruence.
  - rewrite Hc in Hv. injection Hv as <-.
    apply model_ok_spec.
    cbn [reducible r_differentiable c_differentiable].
    repeat split; intros;
      try (apply applied_category_OUT; [ reflexivity | discriminate ]).
    subst cd. unfold violated in Hviol.
    destruct rd; [ reflexivity | discriminate Hviol ].
Qed.

Lemma ModelOutputDef_init_of_constructed_witness :
  exists m,
    ModelOutputDef.init
      (FittingOutputDef.init [mask_entry "mask"; mask_entry "mask_mag"])
    = OK m.
Proof.
  apply ModelOutputDef_init_of_constructed.
  intros vv [<- | [<- | []]].
  - exists "mask", [1], false, false, false, true, false, false, false.
    reflexivity.
  - exists "mask_mag", [1], false, false, false, true, false, false, false.
    reflexivity.
Defined.

(** X18: the keys of the flat mapping of a [ModelOutputDef] are exactly
    the keys of its seven parts: base, reduced, cell derivative,
    coordinate derivative, reduced cell derivative, Hessian and mask. *)
Theorem ModelOutputDef_keys_union (fit : FittingOutputDef.t)
    (m : ModelOutputDef.t) (k : string) :
  ModelOutputDef.init fit = OK m ->
  (In k (ModelOutputDef.keys m)
   <-> In k (ModelOutputDef.keys_outp m)
       \/ In k (ModelOutputDef.keys_redu m)
       \/ In k (ModelOutputDef.keys_derv_c m)
       \/ In k (ModelOutputDef.keys_derv_r m)
       \/ In k (ModelOutputDef.keys_derv_c_redu m)
       \/ In k (ModelOutputDef.keys_hess_r m)
       \/ In k (PyDict.keys (ModelOutputDef.def_mask m))).
Proof.
  intros Hm.
  apply ModelOutputDef_init_parts in Hm as (Ho & _ & _ & _ & _ & _ & Hv).
  unfold ModelOutputDef.keys, ModelOutputDef.keys_outp,
    ModelOutputDef.keys_redu, ModelOutputDef.keys_derv_c,
    ModelOutputDef.keys_derv_r, ModelOutputDef.keys_derv_c_redu,
    ModelOutputDef.keys_hess_r, FittingOutputDef.keys.
  rewrite Hv, Ho. rewrite !In_keys_update.
  unfold FittingOutputDef.get_data. simpl. tauto.
Qed.

Lemma ModelOutputDef_keys_union_witness :
  exists m,
    ModelOutputDef.init {| FittingOutputDef.var_defs := spin_data |} = OK m
    /\ (In "mask_mag" (ModelOutputDef.keys m)
        <-> In "mask_mag" (ModelOutputDef.keys_outp m)
            \/ In "mask_mag" (ModelOutputDef.keys_redu m)
            \/ In "mask_mag" (ModelOutputDef.keys_derv_c m)
            \/ In "mask_mag" (ModelOutputDef.keys_derv_r m)
            \/ In "mask_mag" (ModelOutputDef.keys_derv_c_redu m)
            \/ In "mask_mag" (ModelOutputDef.keys_hess_r m)
            \/ In "mask_mag" (PyDict.keys (ModelOutputDef.def_mask m))).
Proof.
  eexists. split; [ reflexivity |].
  apply (ModelOutputDef_keys_union
           {| FittingOutputDef.var_defs := spin_data |}).
  reflexivity.
Defined.

Lemma orelse_None_r {A : Type} (a : option A) : orelse a None = a.
Proof.
  now destruct a.
Qed.

Lemma wf_do_reduce (d r : PyDict.t VarDef) : do_reduce d = OK r -> PyDict.wf r.
Proof.
  intros H. destruct (do_reduce_OK _ _ H) as [_ ->].
  apply wf_set_all. constructor.
Qed.

Lemma wf_derv_c (d dr dc : PyDict.t VarDef) :
  do_derivative d = OK (dr, dc) -> PyDict.wf dc.
Proof.
  intros Hd. destruct (do_derivative_OK _ _ _ Hd) as [_ ->].
  apply wf_set_all. constructor.
Qed.

Lemma wf_do_mask (d r : PyDict.t VarDef) : do_mask d = OK r -> PyDict.wf r.
Proof.
  rewrite do_mask_spec. intros [= <-].
  destruct (existsb _ d); repeat constructor; simpl;
    intros H; repeat (destruct H as [H | H]; [ discriminate H |]); exact H.
Qed.

Lemma keys_getitem {V : Type} (d : PyDict.t V) (k : string) :
  In k (PyDict.keys d) <-> exists v, PyDict.getitem d k = OK v.
Proof.
  unfold PyDict.getitem. destruct (PyDict.get d k) as [v |] eqn:E.
  - split; [ eauto | intros _; eapply get_Some_keys; eassumption ].
  - split.
    + intros H. apply get_None_keys in E. contradiction.
    + intros [v H]. discriminate H.
Qed.

(** X19: in a [ModelOutputDef] the name [mask] always denotes the mask
    definition of [do_mask], also when a base variable of that name was
    declared; and [mask_mag] denotes the magnetic mask when some base
    variable is magnetic. *)
Theorem ModelOutputDef_mask (fit : FittingOutputDef.t) (m : ModelOutputDef.t) :
  ModelOutputDef.init fit = OK m ->
  ModelOutputDef.getitem m "mask" = OK (mask_entry "mask")
  /\ (existsb (fun item => magnetic (snd item)) (FittingOutputDef.get_data fit)
      = true ->
      ModelOutputDef.getitem m "mask_mag" = OK (mask_entry "mask_mag")).
Proof.
  intros Hm.
  apply ModelOutputDef_init_parts in Hm as (_ & _ & _ & _ & _ & Hmk & Hv).
  pose proof (wf_do_mask _ _ Hmk) as Hwf.
  rewrite do_mask_spec in Hmk. injection Hmk as Hmk.
  unfold ModelOutputDef.getitem, PyDict.getitem. rewrite Hv.
  rewrite !(get_update _ (ModelOutputDef.def_mask m)) by assumption.
  rewrite <- Hmk. split.
  - reflexivity.
  - intros ->. reflexivity.
Qed.

Lemma ModelOutputDef_mask_witness :
  exists m,
    ModelOutputDef.init (FittingOutputDef.init [user_mask_def]) = OK m
    /\ FittingOutputDef.getitem (FittingOutputDef.init [user_mask_def]) "mask"
       = OK user_mask_def
    /\ ModelOutputDef.getitem m "mask" = OK (mask_entry "mask").
Proof.
  eexists. split; [ reflexivity |]. split; [ reflexivity |].
  apply (ModelOutputDef_mask (FittingOutputDef.init [user_mask_def])).
  reflexivity.
Defined.

(** X20: a name that several parts of a [ModelOutputDef] define denotes
    the definition of the part merged last: the mask, then the Hessian,
    the reduced cell derivative, the coordinate derivative, the cell
    derivative, the reduction, and the base definition only when no
    derived part has the name. *)
Theorem ModelOutputDef_lookup_order (fit : FittingOutputDef.t)
    (m : ModelOutputDef.t) (k : string) :
  PyDict.wf (FittingOutputDef.get_data fit) ->
  ModelOutputDef.init fit = OK m ->
  PyDict.get (ModelOutputDef.get_data m) k
  = orelse (PyDict.get (ModelOutputDef.def_mask m) k)
      (orelse (PyDict.get (ModelOutputDef.def_hess_r m) k)
         (orelse (PyDict.get (ModelOutputDef.def_derv_c_redu m) k)
            (orelse (PyDict.get (ModelOutputDef.def_derv_r m) k)
               (orelse (PyDict.get (ModelOutputDef.def_derv_c m) k)
                  (orelse (PyDict.get (ModelOutputDef.def_redu m) k)
                     (PyDict.get (FittingOutputDef.get_data fit) k)))))).
Proof.
  intros Hwf Hm.
  apply ModelOutputDef_init_parts in Hm
    as (_ & Hr & Hd & (x & Hh) & Hcr & Hmk & Hv).
  unfold ModelOutputDef.get_data. rewrite Hv.
  rewrite get_update by (eapply wf_do_mask; eassumption).
  rewrite get_update by (eapply wf_derv_r; eassumption).
  rewrite get_update by (eapply wf_do_reduce; eassumption).
  rewrite get_update by (eapply wf_derv_r; eassumption).
  rewrite get_update by (eapply wf_derv_c; eassumption).
  rewrite get_update by (eapply wf_do_reduce; eassumption).
  rewrite get_update by assumption.
  cbn [PyDict.get PyDict.empty]. now rewrite orelse_None_r.
Qed.

Lemma ModelOutputDef_lookup_order_witness :
  exists m,
    ModelOutputDef.init (FittingOutputDef.init [energy_def; user_redu_def])
    = OK m
    /\ PyDict.get (FittingOutputDef.get_data
                     (FittingOutputDef.init [energy_def; user_redu_def]))
         "energy_redu" = Some user_redu_def
    /\ PyDict.get (ModelOutputDef.def_redu m) "energy_redu"
       = Some (redu_entry "energy_redu" energy_def)
    /\ PyDict.get (ModelOutputDef.get_data m) "energy_redu"
       = Some (redu_entry "energy_redu" energy_def)
    /\ PyDict.get (ModelOutputDef.get_data m) "energy_redu"
       = orelse (PyDict.get (ModelOutputDef.def_mask m) "energy_redu")
           (orelse (PyDict.get (ModelOutputDef.def_hess_r m) "energy_redu")
              (orelse
                 (PyDict.get (ModelOutputDef.def_derv_c_redu m) "energy_redu")
                 (orelse
                    (PyDict.get (ModelOutputDef.def_derv_r m) "energy_redu")
                    (orelse
                       (PyDict.get (ModelOutputDef.def_derv_c m)
                                   "energy_redu")
                       (orelse
                          (PyDict.get (ModelOutputDef.def_redu m)
                                      "energy_redu")
                          (PyDict.get
                             (FittingOutputDef.get_data
                                (FittingOutputDef.init
                                   [energy_def; user_redu_def]))
                             "energy_redu")))))).
Proof.
  eexists. split; [ reflexivity |].
  split; [ reflexivity |]. split; [ reflexivity |]. split; [ reflexivity |].
  apply (ModelOutputDef_lookup_order
           (FittingOutputDef.init [energy_def; user_redu_def])).
  - apply wf_FittingOutputDef_init.
  - reflexivity.
Defined.

Lemma check_var_not_KeyError (var : ndarray) (var_def : VarDef) (x : string) :
  check_var var var_def <> Raise (KeyError x).
Proof.
  unfold check_var.
  destruct (atomic var_def);
    match goal with
    | |- context [Nat.eqb ?a ?b] => destruct (Nat.eqb a b)
    end; cbn [negb]; try discriminate;
    intros H; apply check_shape_errors in H as [H | [H | (s' & d' & H)]];
    discriminate H.
Qed.

Lemma check_entry_KeyError (md : ModelOutputDef.t) (ret : PyDict.t ndarray)
    (k x : string) :
  (exists w, ModelOutputDef.getitem md k = OK w) ->
  check_entry md ret k = Raise (KeyError x) ->
  PyDict.get ret x = None.
Proof.
  intros [w Hw]. unfold check_entry, PyDict.getitem.
  destruct (PyDict.get ret k) as [var |] eqn:E; cbn [bind].
  - rewrite Hw. cbn [bind]. intros H.
    now apply check_var_not_KeyError in H.
  - intros [= <-]. exact E.
Qed.

(** X21: a [ModelOutputDef] has an entry under the [_redu] name of
    every reducible base variable, under the [_derv_r] name of every
    [r_differentiable] one and under the [_derv_c] name of every
    [c_differentiable] one.  So when the entry under the name of a base
    variable is the base definition itself, a [KeyError] of the model
    wrapper's check of that variable always names a tensor that the
    result mapping lacks, never a definition that the schema lacks.
    The condition matters: for the base variables [a] (magnetic, with a
    virial) and [a_derv_c_mag], the entry under [a_derv_c_mag] is the
    reducible twin, no [a_derv_c_mag_redu] is defined, and the model
    wrapper raises whatever the wrapped call returns. *)
Theorem ModelOutputDef_has_checked_names :
  (forall (fit : FittingOutputDef.t) (m : ModelOutputDef.t) (kk : string)
          (dd : VarDef),
      ModelOutputDef.init fit = OK m ->
      In (kk, dd) (FittingOutputDef.get_data fit) ->
      ((reducible dd = true ->
        exists w, ModelOutputDef.getitem m (get_reduce_name kk) = OK w)
       /\ (r_differentiable dd = true ->
           exists w,
             ModelOutputDef.getitem m (fst (get_deriv_name kk)) = OK w)
       /\ (c_differentiable dd = true ->
           exists w,
             ModelOutputDef.getitem m (snd (get_deriv_name kk)) = OK w))
      /\ (ModelOutputDef.getitem m kk = OK dd ->
          forall ret x,
            model_check_key m ret kk = Raise (KeyError x) ->
            PyDict.get ret x = None))
  /\ (exists m dd,
         ModelOutputDef.init
           (FittingOutputDef.init [twin_base_def; twin_clash_def]) = OK m
         /\ ModelOutputDef.keys_outp m = ["a"; "a_derv_c_mag"]
         /\ FittingOutputDef.getitem
              (FittingOutputDef.init [twin_base_def; twin_clash_def])
              "a_derv_c_mag" = OK twin_clash_def
         /\ reducible twin_clash_def = false
         /\ ModelOutputDef.getitem m "a_derv_c_mag" = OK dd
         /\ reducible dd = true
         /\ ModelOutputDef.getitem m (get_reduce_name "a_derv_c_mag")
            = Raise (KeyError "a_derv_c_mag_redu")
         /\ (forall ret, raises (model_check_key m ret "a_derv_c_mag"))
         /\ (forall (Args : Type)
                    (cls_call : Args -> result (PyDict.t ndarray))
                    (args : Args),
                raises (model_check_output cls_call m args))).
Proof.
  split.
  - intros fit m kk dd Hm Hin.
    assert (Hnames :
      (reducible dd = true ->
       exists w, ModelOutputDef.getitem m (get_reduce_name kk) = OK w)
      /\ (r_differentiable dd = true ->
          exists w, ModelOutputDef.getitem m (fst (get_deriv_name kk)) = OK w)
      /\ (c_differentiable dd = true ->
          exists w,
            ModelOutputDef.getitem m (snd (get_deriv_name kk)) = OK w));
      [| split; [ exact Hnames |];
         destruct Hnames as (N1 & N2 & N3);
         intros Hdd ret x;
         unfold model_check_key; rewrite Hdd; cbn [bind];
         unfold PyDict.getitem at 1;
         destruct (PyDict.get ret kk) as [var |] eqn:E; cbn [bind];
           [| intros [= <-]; exact E ];
         destruct (check_var var dd) as [[] | e1] eqn:Ecv; cbn [bind];
           [| intros [= ->]; now apply check_var_not_KeyError in Ecv ];
         destruct (reducible dd) eqn:Hred;
           [ destruct (check_entry m ret (get_reduce_name kk))
               as [[] | e2] eqn:E2; cbn [bind];
               [| intros [= ->];
                  exact (check_entry_KeyError _ _ _ _ (N1 eq_refl) E2) ]
           | cbn [bind] ];
         (destruct (r_differentiable dd) eqn:Hrd;
           [ destruct (check_entry m ret (fst (get_deriv_name kk)))
               as [[] | e3] eqn:E3; cbn [bind];
               [| intros [= ->];
                  exact (check_entry_KeyError _ _ _ _ (N2 eq_refl) E3) ]
           | cbn [bind] ]);
         (destruct (c_differentiable dd) eqn:Hcd;
           [| discriminate ]);
         cbn [negb]; try discriminate;
         intros E4; exact (check_entry_KeyError _ _ _ _ (N3 eq_refl) E4) ].
    apply ModelOutputDef_init_parts in Hm
      as (_ & Hr & Hd & _ & _ & _ & Hv).
    destruct (do_reduce_OK _ _ Hr) as [_ Hredu].
    destruct (do_derivative_OK _ _ _ Hd) as [Hdr Hdc].
    unfold ModelOutputDef.getitem, get_reduce_name, get_deriv_name.
    cbn [fst snd].
    assert (Hk : forall (emits : string * VarDef -> list (string * VarDef)) e,
               In e (emits (kk, dd)) ->
               In (fst e)
                  (PyDict.keys
                     (PyDict.set_all PyDict.empty
                        (flat_map emits (FittingOutputDef.get_data fit))))).
    { intros emits e He. apply In_keys_set_all. right.
      apply in_map. apply in_flat_map. eauto. }
    split; [| split ].
    + intros Hred. apply keys_getitem. rewrite Hv, !In_keys_update.
      rewrite Hredu. do 5 left. right.
      apply (Hk emits_redu (kk ++ "_redu", redu_entry (kk ++ "_redu") dd)).
      unfold emits_redu. rewrite Hred. now left.
    + intros Hrd. apply keys_getitem. rewrite Hv, !In_keys_update.
      rewrite Hdr. do 3 left. right.
      apply (Hk emits_r
               (kk ++ "_derv_r", derv_r_entry (kk ++ "_derv_r") dd false)).
      unfold emits_r, emits_r1. rewrite Hrd. now left.
    + intros Hcd. apply keys_getitem. rewrite Hv, !In_keys_update.
      rewrite Hdc. do 4 left. right.
      apply (Hk emits_c
               (kk ++ "_derv_c", derv_c_entry (kk ++ "_derv_c") dd false)).
      unfold emits_c. rewrite Hcd. now left.
  - eexists. eexists.
    split; [ reflexivity |]. split; [ reflexivity |].
    split; [ reflexivity |]. split; [ reflexivity |].
    split; [ reflexivity |]. split; [ reflexivity |].
    split; [ reflexivity |].
    match goal with
    | |- (forall ret, raises (model_check_key ?m ret _)) /\ _ =>
        assert (Hkey : forall ret, raises (model_check_key m ret "a_derv_c_mag"))
    end.
    { intros ret. apply raises_not_OK. intros [] H.
      apply model_check_key_OK in H
        as (dd & var & Hdd & _ & _ & Hred & _ & _).
      injection Hdd as <-.
      destruct (Hred eq_refl) as (var' & var_def & _ & Hdef & _).
      discriminate Hdef. }
    split; [ exact Hkey |].
    intros Args cls_call args. unfold model_check_output.
    destruct (cls_call args) as [ret | e]; cbn [bind];
      [| eexists; reflexivity ].
    match goal with
    | |- raises (bind (forM_ ?f ?l) _) =>
        assert (Hr : raises (forM_ f l))
    end.
    { apply forM__Raise with (x := "a_derv_c_mag").
      - simpl. auto.
      - apply Hkey. }
    destruct Hr as [e ->]. now exists e.
Qed.

Lemma ModelOutputDef_has_checked_names_witness :
  exists m,
    ModelOutputDef.init {| FittingOutputDef.var_defs := spin_data |} = OK m
    /\ (exists w,
           ModelOutputDef.getitem m (snd (get_deriv_name "energy")) = OK w)
    /\ PyDict.get [("energy", {| ndshape := [1; 2; 1] |});
                   ("energy_redu", {| ndshape := [1; 1] |});
                   ("energy_derv_r", {| ndshape := [1; 2; 1; 3] |})]
                  "energy_derv_c" = None.
Proof.
  eexists. split; [ reflexivity |]. split.
  - apply (proj1 (proj1 ModelOutputDef_has_checked_names
                    {| FittingOutputDef.var_defs := spin_data |} _
                    "energy" spin_energy_def eq_refl
                    (or_introl eq_refl))).
    reflexivity.
  - apply (proj2 (proj1 ModelOutputDef_has_checked_names
                    {| FittingOutputDef.var_defs := spin_data |} _
                    "energy" spin_energy_def eq_refl
                    (or_introl eq_refl))
                 eq_refl
                 [("energy", {| ndshape := [1; 2; 1] |});
                  ("energy_redu", {| ndshape := [1; 1] |});
                  ("energy_derv_r", {| ndshape := [1; 2; 1; 3] |})]
                 "energy_derv_c").
    reflexivity.
Defined.

(** ** The fitting-level wrapper *)

Section FittingWrapper.
Context {Args : Type}.
Variable cls_call : Args -> result (PyDict.t ndarray).
Variable md : FittingOutputDef.t.
Variable args : Args.

(** X22: the fitting wrapper returns exactly when the wrapped call
    returns a mapping in which every declared name has a tensor that
    passes [check_var], and it returns that mapping; a declared name
    that the mapping lacks makes it raise, an exception of the wrapped
    call goes through, and whether it returns depends on the mapping
    only through the entries under the declared names. *)
Theorem fitting_check_output_spec :
  (forall ret,
      fitting_check_output cls_call md args = OK ret
      <-> cls_call args = OK ret
          /\ forall kk,
               In kk (FittingOutputDef.keys md) ->
               exists dd var,
                 FittingOutputDef.getitem md kk = OK dd
                 /\ PyDict.get ret kk = Some var
                 /\ check_var var dd = OK tt)
  /\ (forall ret kk,
         cls_call args = OK ret ->
         In kk (FittingOutputDef.keys md) ->
         PyDict.get ret kk = None ->
         raises (fitting_check_output cls_call md args))
  /\ (forall e,
         cls_call args = Raise e ->
         fitting_check_output cls_call md args = Raise e)
  /\ (forall ret ret',
         cls_call args = OK ret ->
         (forall kk, In kk (FittingOutputDef.keys md) ->
                     PyDict.get ret' kk = PyDict.get ret kk) ->
         is_ok (fitting_check_output cls_call md args)
         = is_ok (fitting_check_output (fun _ => OK ret') md args)).
Proof.
  set (body := fun (ret : PyDict.t ndarray) (kk : string) =>
                 dd <- FittingOutputDef.getitem md kk ;;
                 var <- PyDict.getitem ret kk ;;
                 check_var var dd).
  assert (Hbody : forall ret kk,
             body ret kk = OK tt
             <-> exists dd var,
                   FittingOutputDef.getitem md kk = OK dd
                   /\ PyDict.get ret kk = Some var
                   /\ check_var var dd = OK tt).
  { intros ret kk. unfold body. split.
    - intros H. apply bind_OK_inv in H as (dd & Hdd & H).
      apply bind_OK_inv in H as (var & Hvar & H).
      apply getitem_OK in Hvar. eauto.
    - intros (dd & var & Hdd & Hvar & H). apply getitem_OK in Hvar.
      now rewrite Hdd, Hvar. }
  assert (Hiff : forall call ret,
             fitting_check_output call md args = OK ret
             <-> call args = OK ret
                 /\ forall kk, In kk (FittingOutputDef.keys md) ->
                               body ret kk = OK tt).
  { intros call ret. unfold fitting_check_output. fold (body).
    destruct (call args) as [r | e]; cbn [bind].
    - change (fun kk => dd <- FittingOutputDef.getitem md kk;;
                        var <- PyDict.getitem r kk;; check_var var dd)
        with (body r).
      split.
      + intros H. apply bind_OK_inv in H as ([] & Hf & H).
        injection H as ->. split; [ reflexivity |].
        now apply forM__OK.
      + intros [[= ->] Hall]. apply forM__OK in Hall. now rewrite Hall.
    - split; [ discriminate | intros [H _]; discriminate H ]. }
  split; [| split; [| split ] ].
  - intros ret. rewrite Hiff. split; intros [H1 H2]; (split; [ exact H1 |]);
      intros kk Hkk; apply Hbody; auto.
  - intros ret kk Hcall Hkk Hnone. apply raises_not_OK. intros r Hr.
    apply Hiff in Hr as [Hr Hall]. rewrite Hcall in Hr. injection Hr as <-.
    apply Hall, Hbody in Hkk as (dd & var & _ & Hget & _). congruence.
  - intros e He. unfold fitting_check_output. now rewrite He.
  - intros ret ret' Hcall Hagree.
    assert (Hsame : forall kk, In kk (FittingOutputDef.keys md) ->
                               body ret' kk = body ret kk).
    { intros kk Hkk. unfold body, PyDict.getitem.
      now rewrite (Hagree kk Hkk). }
    destruct (fitting_check_output cls_call md args) as [r | e] eqn:E1;
      destruct (fitting_check_output (fun _ => OK ret') md args)
        as [r' | e'] eqn:E2; try reflexivity; exfalso.
    + apply Hiff in E1 as [E1 Hall]. rewrite Hcall in E1. injection E1 as <-.
      assert (E : fitting_check_output (fun _ => OK ret') md args = OK ret').
      { apply Hiff. split; [ reflexivity |].
        intros kk Hkk. rewrite Hsame by assumption. auto. }
      congruence.
    + apply Hiff in E2 as [E2 Hall]. injection E2 as <-.
      assert (E : fitting_check_output cls_call md args = OK ret).
      { apply Hiff. split; [ assumption |].
        intros kk Hkk. rewrite <- Hsame by assumption. auto. }
      congruence.
Qed.
End FittingWrapper.

Lemma fitting_check_output_spec_witness :
  raises (fitting_check_output forgetful_call
            {| FittingOutputDef.var_defs := [("dipole", energy_def)] |} tt).
Proof.
  eapply (proj1 (proj2 (fitting_check_output_spec forgetful_call _ tt))
            _ "dipole").
  - reflexivity.
  - now left.
  - reflexivity.
Defined.

(** ** The schemas of the DOS model and of the dipole fitting *)

(** X23: the schema of the DOS model has the keys [dos], [dos_redu] and
    [mask], and the model wrapper accepts, for that schema, a [dos]
    tensor of shape [[nf, nloc, n]] together with a [dos_redu] tensor of
    shape [[nf', m]], whatever the dimensions are: the two last
    dimensions are wildcards and nothing relates the two tensors. *)
Theorem DeepDOS_schema_accepts :
  exists md,
    DeepDOS.output_def = OK md
    /\ ModelOutputDef.keys md = ["dos"; "dos_redu"; "mask"]
    /\ forall nf nloc n nf' m,
         model_check_output
           (fun _ : unit =>
              OK [("dos", {| ndshape := [nf; nloc; n] |});
                  ("dos_redu", {| ndshape := [nf'; m] |})])
           md tt
         = OK [("dos", {| ndshape := [nf; nloc; n] |});
               ("dos_redu", {| ndshape := [nf'; m] |})].
Proof.
  eexists. split; [ reflexivity |]. split; [ reflexivity |].
  intros nf nloc n nf' m. reflexivity.
Qed.

(** X24: [DipoleFittingNet.output_def] raises exactly when the net is
    [c_differentiable] without being [r_differentiable]; otherwise it
    declares the single variable [var_name], of shape [[3]], reducible
    and atomic, with the two flags of the net, and a [ModelOutputDef]
    can be built from it. *)
Theorem DipoleFittingNet_output_def_spec (self : DipoleFittingNet.t) :
  (DipoleFittingNet.c_differentiable self = true
   /\ DipoleFittingNet.r_differentiable self = false ->
   DipoleFittingNet.output_def self
   = Raise (ValueError (Literal "c differentiable requires r_differentiable")))
  /\ (~ (DipoleFittingNet.c_differentiable self = true
         /\ DipoleFittingNet.r_differentiable self = false) ->
      exists fit vv m,
        DipoleFittingNet.output_def self = OK fit
        /\ FittingOutputDef.keys fit = [DipoleFittingNet.var_name self]
        /\ FittingOutputDef.getitem fit (DipoleFittingNet.var_name self)
           = OK vv
        /\ name vv = DipoleFittingNet.var_name self
        /\ shape vv = [3] /\ size vv = 3
        /\ reducible vv = true /\ atomic vv = true
        /\ r_differentiable vv = DipoleFittingNet.r_differentiable self
        /\ c_differentiable vv = DipoleFittingNet.c_differentiable self
        /\ ModelOutputDef.init fit = OK m).
Proof.
  destruct self as [nm rd cd]. unfold DipoleFittingNet.output_def.
  cbn [DipoleFittingNet.var_name DipoleFittingNet.r_differentiable
       DipoleFittingNet.c_differentiable].
  split.
  - intros [-> ->]. reflexivity.
  - intros Hok.
    assert (Hinit :
      OutputVariableDef.init nm [3] true rd cd true
        (OutputVariableCategory.value OutputVariableCategory.OUT)
        false false false
      = OK {| name := nm; shape := [3]; output_size := 3;
              atomic := true; reducible := true; r_differentiable := rd;
              c_differentiable := cd; intensive := false; category := 0;
              r_hessian := false; magnetic := false |}).
    { destruct rd, cd; try reflexivity. elim Hok. auto. }
    rewrite Hinit. cbn [bind].
    destruct (ModelOutputDef_init_returns
                (FittingOutputDef.init
                   [{| name := nm; shape := [3]; output_size := 3;
                       atomic := true; reducible := true;
                       r_differentiable := rd; c_differentiable := cd;
                       intensive := false; category := 0;
                       r_hessian := false; magnetic := false |}]))
      as [m Hm].
    { destruct rd, cd; try reflexivity. elim Hok. auto. }
    do 3 eexists. split; [ reflexivity |].
    split; [ reflexivity |].
    split.
    { unfold FittingOutputDef.getitem, PyDict.getitem, FittingOutputDef.init.
      cbn. rewrite String.eqb_refl. reflexivity. }
    repeat split. exact Hm.
Qed.

Lemma DipoleFittingNet_output_def_spec_witness :
  DipoleFittingNet.output_def
    {| DipoleFittingNet.var_name := "dipole";
       DipoleFittingNet.r_differentiable := false;
       DipoleFittingNet.c_differentiable := true |}
  = Raise (ValueError (Literal "c differentiable requires r_differentiable")).
Proof.
  apply (proj1 (DipoleFittingNet_output_def_spec
                  {| DipoleFittingNet.var_name := "dipole";
                     DipoleFittingNet.r_differentiable := false;
                     DipoleFittingNet.c_differentiable := true |})).
  split; reflexivity.
Defined.

(** ** More on [do_derivative] *)

(** X25: [do_derivative] returns exactly when, for every variable of
    the dict: if it is [r_differentiable], its category does not have
    both the [DERV_R] and the [_SEC_DERV_R] bit; and if it is
    [c_differentiable], it is [r_differentiable] and its category has
    no [DERV_C] bit. *)
Theorem do_derivative_returns_iff (d : PyDict.t VarDef) :
  (exists dr dc, do_derivative d = OK (dr, dc))
  <-> (forall k vv,
          In (k, vv) d ->
          (r_differentiable vv = true ->
           check_operation_applied vv OutputVariableOperation.DERV_R = true ->
           check_operation_applied vv OutputVariableOperation._SEC_DERV_R
           = false)
          /\ (c_differentiable vv = true ->
              r_differentiable vv = true
              /\ check_operation_applied vv OutputVariableOperation.DERV_C
                 = false)).
Proof.
  assert (Hspec : forall vv,
             derivable vv = true
             <-> (r_differentiable vv = true ->
                  check_operation_applied vv OutputVariableOperation.DERV_R
                  = true ->
                  check_operation_applied vv
                    OutputVariableOperation._SEC_DERV_R = false)
                 /\ (c_differentiable vv = true ->
                     r_differentiable vv = true
                     /\ check_operation_applied vv
                          OutputVariableOperation.DERV_C = false)).
  { intros vv. unfold derivable.
    destruct (r_differentiable vv), (c_differentiable vv),
      (check_operation_applied vv OutputVariableOperation.DERV_R),
      (check_operation_applied vv OutputVariableOperation._SEC_DERV_R),
      (check_operation_applied vv OutputVariableOperation.DERV_C);
      cbn; intuition (try discriminate; try congruence). }
  pose proof (do_derivative_cases d) as Hc.
  destruct (forallb (fun item => derivable (snd item)) d) eqn:Hall.
  - split; [| eauto ]. intros _ k vv Hin.
    rewrite forallb_forall in Hall. apply Hspec. exact (Hall _ Hin).
  - split.
    + intros (dr & dc & H). destruct Hc as [e He]. congruence.
    + intros H. exfalso.
      assert (Ht : forallb (fun item => derivable (snd item)) d = true).
      { apply forallb_forall. intros [k vv] Hin. apply Hspec. eauto. }
      congruence.
Qed.

Lemma do_derivative_returns_iff_witness :
  exists dr dc, do_derivative spin_data = OK (dr, dc).
Proof.
  apply (proj2 (do_derivative_returns_iff spin_data)).
  intros k vv [[= <- <-] | []].
  repeat split; intros; reflexivity.
Defined.

Lemma derv_r_mag_lookup (d dr dc : PyDict.t VarDef) (k : string)
    (v : VarDef) :
  PyDict.wf d ->
  do_derivative d = OK (dr, dc) ->
  PyDict.get d k = Some v ->
  r_differentiable v = true ->
  magnetic v = true ->
  PyDict.get dr (k ++ "_derv_r_mag")
  = Some (derv_r_entry (k ++ "_derv_r_mag") v true).
Proof.
  intros Hwf Hderv Hget Hr Hm.
  destruct (do_derivative_OK _ _ _ Hderv) as [-> _].
  destruct (wf_split _ _ _ Hwf Hget) as (d1 & d2 & -> & _ & Hk2).
  apply get_emitted with
    (pre := [((k ++ "_derv_r")%string,
              derv_r_entry (k ++ "_derv_r")%string v false)])
    (post := emits_rc (k, v)).
  - unfold emits_r, emits_r1. now rewrite Hr, Hm.
  - intros e He. unfold emits_rc in He.
    destruct (c_differentiable v && magnetic v); simpl in He;
      [| contradiction ].
    destruct He as [<- | []]. simpl. intros H. suffix_clash H.
  - intros [k' v'] e Hb He.
    pose proof (key_not_in_keys _ _ _ _ Hk2 Hb) as Hne.
    apply emits_r_spec in He as [[-> _] | [[-> _] | [-> _]]]; simpl;
      intros H.
    + suffix_clash H.
    + apply append_inj_l in H. contradiction.
    + suffix_clash H.
Qed.

(** X26: for a base variable [k] of category [OUT], the derived entries
    of a [ModelOutputDef] carry the named categories: [k_redu] has
    [REDU], [k_derv_r] has [DERV_R], [k_derv_c] has [DERV_C],
    [k_derv_c_redu] has [DERV_C_REDU] and the Hessian has
    [DERV_R_DERV_R].  The magnetic twins [k_derv_r_mag] and
    [k_derv_c_mag] have the categories [DERV_R] and [DERV_C] of the
    entries they accompany, not [DERV_R_MAG] and [DERV_C_MAG]. *)
Theorem derived_categories (fit : FittingOutputDef.t) (m : ModelOutputDef.t)
    (k : string) (v : VarDef) :
  PyDict.wf (FittingOutputDef.get_data fit) ->
  ModelOutputDef.init fit = OK m ->
  PyDict.get (FittingOutputDef.get_data fit) k = Some v ->
  category v = OutputVariableCategory.value OutputVariableCategory.OUT ->
  (reducible v = true ->
   exists w,
     PyDict.get (ModelOutputDef.def_redu m) (get_reduce_name k) = Some w
     /\ category w = OutputVariableCategory.value OutputVariableCategory.REDU)
  /\ (r_differentiable v = true ->
      exists w,
        PyDict.get (ModelOutputDef.def_derv_r m) (fst (get_deriv_name k))
        = Some w
        /\ category w
           = OutputVariableCategory.value OutputVariableCategory.DERV_R)
  /\ (c_differentiable v = true ->
      exists w wr,
        PyDict.get (ModelOutputDef.def_derv_c m) (snd (get_deriv_name k))
        = Some w
        /\ category w
           = OutputVariableCategory.value OutputVariableCategory.DERV_C
        /\ PyDict.get (ModelOutputDef.def_derv_c_redu m)
             (get_reduce_name (snd (get_deriv_name k))) = Some wr
        /\ category wr
           = OutputVariableCategory.value OutputVariableCategory.DERV_C_REDU)
  /\ (r_differentiable v = true -> r_hessian v = true ->
      exists h,
        PyDict.get (ModelOutputDef.def_hess_r m) (get_hessian_name k) = Some h
        /\ category h
           = OutputVariableCategory.value OutputVariableCategory.DERV_R_DERV_R)
  /\ (r_differentiable v = true -> magnetic v = true ->
      exists w,
        PyDict.get (ModelOutputDef.def_derv_r m)
          (fst (get_deriv_name_mag k)) = Some w
        /\ magnetic w = true
        /\ category w
           = OutputVariableCategory.value OutputVariableCategory.DERV_R
        /\ category w
           <> OutputVariableCategory.value OutputVariableCategory.DERV_R_MAG)
  /\ (c_differentiable v = true -> magnetic v = true ->
      exists w,
        PyDict.get (ModelOutputDef.def_derv_r m)
          (snd (get_deriv_name_mag k)) = Some w
        /\ magnetic w = true
        /\ category w
           = OutputVariableCategory.value OutputVariableCategory.DERV_C
        /\ category w
           <> OutputVariableCategory.value OutputVariableCategory.DERV_C_MAG).
Proof.
  intros Hwf Hm Hget Hcat.
  apply ModelOutputDef_init_parts in Hm
    as (_ & Hr & Hd & (x & Hh) & Hcr & _ & _).
  change (OutputVariableCategory.value OutputVariableCategory.OUT)
    with 0 in Hcat.
  unfold get_reduce_name, get_deriv_name, get_deriv_name_mag. cbn [fst snd].
  pose proof (wf_derv_r _ _ _ Hd) as Hwfr.
  pose proof (wf_derv_c _ _ _ Hd) as Hwfc.
  split; [| split; [| split; [| split; [| split ] ] ] ].
  - intros Hred.
    pose proof (redu_lookup _ _ k v Hwf Hr Hget) as Hl. rewrite Hred in Hl.
    eexists. split; [ exact Hl |].
    unfold redu_entry. cbn [category]. now rewrite Hcat.
  - intros Hrd.
    pose proof (derv_r_lookup _ _ _ Hwf Hd k v Hget) as Hl.
    rewrite Hrd in Hl. eexists. split; [ exact Hl |].
    unfold derv_r_entry, derv_entry, check_operation_applied.
    cbn [category]. now rewrite Hcat.
  - intros Hcd.
    pose proof (derv_c_lookup _ _ _ Hwf Hd k v Hget) as Hl.
    rewrite Hcd in Hl.
    pose proof (redu_lookup _ _ _ _ Hwfc Hcr Hl) as Hl2.
    unfold derv_c_entry at 1, derv_entry at 1 in Hl2.
    cbn [reducible] in Hl2.
    do 2 eexists. split; [ exact Hl |]. split; [| split; [ exact Hl2 |] ].
    + unfold derv_c_entry, derv_entry. cbn [category]. now rewrite Hcat.
    + unfold redu_entry, derv_c_entry, derv_entry. cbn [category].
      now rewrite Hcat.
  - intros Hrd Hrh.
    pose proof (derv_r_lookup _ _ _ Hwf Hd k v Hget) as Hl.
    rewrite Hrd in Hl.
    pose proof (derv_r_lookup _ _ _ Hwfr Hh _ _ Hl) as Hl2.
    unfold derv_r_entry at 1, derv_entry at 1 in Hl2.
    cbn [r_differentiable] in Hl2.
    rewrite Hrh, Hcat in Hl2. cbn [andb Z.eqb] in Hl2.
    rewrite hessian_name_twice.
    eexists. split; [ exact Hl2 |].
    unfold derv_r_entry, derv_entry, check_operation_applied.
    cbn [category]. now rewrite Hcat.
  - intros Hrd Hmag.
    pose proof (derv_r_mag_lookup _ _ _ k v Hwf Hd Hget Hrd Hmag) as Hl.
    eexists. split; [ exact Hl |].
    unfold derv_r_entry, derv_entry, check_operation_applied.
    cbn [category magnetic]. rewrite Hcat.
    repeat split. discriminate.
  - intros Hcd Hmag.
    pose proof (derv_c_mag_lookup _ _ _ Hwf Hd k v Hget Hcd Hmag) as Hl.
    eexists. split; [ exact Hl |].
    unfold derv_c_entry, derv_entry. cbn [category magnetic]. rewrite Hcat.
    repeat split. discriminate.
Qed.

Lemma derived_categories_witness :
  exists m w,
    ModelOutputDef.init {| FittingOutputDef.var_defs := spin_data |} = OK m
    /\ PyDict.get (ModelOutputDef.def_derv_r m)
         (snd (get_deriv_name_mag "energy")) = Some w
    /\ magnetic w = true
    /\ category w = OutputVariableCategory.value OutputVariableCategory.DERV_C
    /\ category w
       <> OutputVariableCategory.value OutputVariableCategory.DERV_C_MAG.
Proof.
  eexists.
  destruct (proj2 (proj2 (proj2 (proj2 (proj2
              (derived_categories
                 {| FittingOutputDef.var_defs := spin_data |} _
                 "energy" spin_energy_def
                 ltac:(repeat constructor; intros [])
                 eq_refl eq_refl eq_refl)))))
              eq_refl eq_refl) as (w & Hw).
  exists w. split; [ reflexivity | exact Hw ].
Defined.

(** ** The second pass of [do_derivative], completely *)

Lemma set_fresh {V : Type} (d : PyDict.t V) (k : string) (v : V) :
  ~ In k (PyDict.keys d) -> PyDict.set d k v = (d ++ [(k, v)])%list.
Proof.
  unfold PyDict.keys. induction d as [| [k' v'] d IH]; simpl; intros H.
  - reflexivity.
  - destruct (String.eqb_spec k' k) as [-> | _].
    + elim H. now left.
    + rewrite IH; [ reflexivity |]. intros Hin. apply H. now right.
Qed.

Lemma set_all_fresh {V : Type} (es : list (string * V)) (d : PyDict.t V) :
  NoDup (PyDict.keys d ++ map fst es)%list ->
  PyDict.set_all d es = (d ++ es)%list.
Proof.
  revert d. induction es as [| [k v] es IH]; intros d Hnd.
  - symmetry. apply app_nil_r.
  - change (PyDict.set_all (PyDict.set d k v) es = (d ++ (k, v) :: es)%list).
    simpl in Hnd.
    assert (Hk : ~ In k (PyDict.keys d)).
    { intros Hin. apply NoDup_remove_2 in Hnd. apply Hnd.
      apply in_or_app. now left. }
    rewrite (set_fresh d k v Hk). rewrite IH.
    + now rewrite <- app_assoc.
    + unfold PyDict.keys in *. rewrite map_app, <- app_assoc. exact Hnd.
Qed.

Lemma emits_r_NoDup (item : string * VarDef) :
  NoDup (map fst (emits_r item)).
Proof.
  destruct item as [k v]. unfold emits_r, emits_r1, emits_rc.
  destruct (r_differentiable v), (c_differentiable v), (magnetic v);
    simpl; repeat constructor; simpl;
    intros H; repeat (destruct H as [H | H]; [ suffix_clash H |]);
    exact H.
Qed.

Lemma emits_r_disjoint (k : string) (v : VarDef) (k' : string) (v' : VarDef)
    (e e' : string * VarDef) :
  k <> k' -> In e (emits_r (k, v)) -> In e' (emits_r (k', v')) ->
  fst e <> fst e'.
Proof.
  intros Hne He He' H.
  apply emits_r_spec in He as [[-> _] | [[-> _] | [-> _]]];
    apply emits_r_spec in He' as [[-> _] | [[-> _] | [-> _]]];
    simpl in H;
    solve [ apply append_inj_l in H; contradiction | suffix_clash H ].
Qed.

(** For a dict, the first mapping of [do_derivative] is the list of the
    emitted items itself: no item overwrites another. *)
Lemma derv_r_list (d dr dc : PyDict.t VarDef) :
  PyDict.wf d ->
  do_derivative d = OK (dr, dc) ->
  dr = flat_map emits_r d.
Proof.
  intros Hwf Hd. destruct (do_derivative_OK _ _ _ Hd) as [-> _].
  apply (set_all_fresh (flat_map emits_r d) PyDict.empty).
  apply (NoDup_emitted_keys emits_r d Hwf emits_r_NoDup emits_r_disjoint).
Qed.

Lemma hessian_flag_false (v : VarDef) :
  r_hessian v = false
  \/ category v <> OutputVariableCategory.value OutputVariableCategory.OUT ->
  r_hessian v
  && (category v =? OutputVariableCategory.value OutputVariableCategory.OUT)
  = false.
Proof.
  intros [-> | H]; [ reflexivity |].
  apply Z.eqb_neq in H. rewrite H. apply andb_false_r.
Qed.

(** The flags of the three first derivatives of a variable. *)
Lemma first_derivative_flags (d dr dc : PyDict.t VarDef) (k : string)
    (v w : VarDef) :
  PyDict.wf d ->
  do_derivative d = OK (dr, dc) ->
  PyDict.get d k = Some v ->
  (PyDict.get dr (k ++ "_derv_r") = Some w ->
   c_differentiable w = false /\ magnetic w = false
   /\ r_differentiable w
      = r_hessian v
        && (category v
            =? OutputVariableCategory.value OutputVariableCategory.OUT))
  /\ (PyDict.get dr (k ++ "_derv_r_mag") = Some w ->
      c_differentiable w = false /\ magnetic w = true
      /\ r_differentiable w
         = r_hessian v
           && (category v
               =? OutputVariableCategory.value OutputVariableCategory.OUT))
  /\ (PyDict.get dr (k ++ "_derv_c_mag") = Some w ->
      c_differentiable w = false /\ magnetic w = true
      /\ r_differentiable w = false).
Proof.
  intros Hwf Hd Hget.
  pose proof (derv_r_list d dr dc Hwf Hd) as ->.
  assert (Horigin : forall x,
             PyDict.get (flat_map emits_r d) x = Some w ->
             exists k' v',
               In (k', v') d /\ In (x, w) (emits_r (k', v'))).
  { intros x Hx. apply get_In in Hx.
    apply in_flat_map in Hx as ([k' v'] & Hin & He). eauto. }
  assert (Hsame : forall k' v', In (k', v') d -> k' = k -> v' = v).
  { intros k' v' Hin ->. apply (wf_In_get _ _ _ Hwf) in Hin. congruence. }
  split; [| split ]; intros Hx;
    apply Horigin in Hx as (k' & v' & Hin & He);
    apply emits_r_spec in He as [[He _] | [[He _] | [He _]]];
    injection He as Hname ->;
    try solve [ suffix_clash Hname ];
    apply append_inj_l in Hname; symmetry in Hname;
    rewrite (Hsame k' v' Hin Hname); repeat split.
Qed.

(** A first derivative that is not differentiable yields nothing in the
    second pass. *)
Lemma second_pass_absent (dr h hc : PyDict.t VarDef) (x y : string) :
  PyDict.wf dr ->
  do_derivative dr = OK (h, hc) ->
  (forall w, PyDict.get dr x = Some w ->
             r_differentiable w = false /\ c_differentiable w = false) ->
  In y (first_derivative_names x) ->
  PyDict.get h y = None.
Proof.
  intros Hwf Hh Hflags Hy.
  destruct (do_derivative_OK _ _ _ Hh) as [-> _].
  apply get_not_emitted. intros [x' w'] e Hb He Hname.
  assert (Hx' : x' = x -> False).
  { intros ->. apply (wf_In_get _ _ _ Hwf) in Hb.
    destruct (Hflags w' Hb) as [Hr Hc].
    apply emits_r_spec in He as [[_ H] | [[_ [H _]] | [_ [H _]]]];
      congruence. }
  unfold first_derivative_names, get_deriv_name, get_deriv_name_mag in Hy.
  cbn [fst snd] in Hy.
  apply emits_r_spec in He as [[-> _] | [[-> _] | [-> _]]];
    cbn [fst] in Hname;
    destruct Hy as [<- | [<- | [<- | []]]];
    solve [ suffix_clash Hname
          | apply append_inj_l in Hname; auto ].
Qed.

Lemma hess_names_of_item (item : string * VarDef) :
  map fst (flat_map emits_r (emits_r item)) = hess_names item.
Proof.
  destruct item as [k v]. unfold hess_names.
  rewrite hessian_name_twice.
  unfold get_deriv_name, get_deriv_name_mag. cbn [fst snd].
  unfold emits_r, emits_r1, emits_rc, derv_r_entry, derv_c_entry, derv_entry.
  remember (category v
            =? OutputVariableCategory.value OutputVariableCategory.OUT)
    as out eqn:Hout.
  clear Hout.
  destruct (r_differentiable v), (c_differentiable v), (magnetic v),
    (r_hessian v), out;
    cbn [andb app flat_map r_differentiable c_differentiable magnetic
         map fst];
    reflexivity.
Qed.

Lemma hess_keys (d dr dc h hc : PyDict.t VarDef) :
  PyDict.wf d ->
  do_derivative d = OK (dr, dc) ->
  do_derivative dr = OK (h, hc) ->
  PyDict.keys h = flat_map hess_names d.
Proof.
  intros Hwf Hd Hh.
  pose proof (derv_r_list dr h hc (wf_derv_r _ _ _ Hd) Hh) as ->.
  pose proof (derv_r_list d dr dc Hwf Hd) as ->.
  unfold PyDict.keys. clear.
  induction d as [| item d IH]; simpl; [ reflexivity |].
  rewrite flat_map_app, map_app, IH. f_equal. apply hess_names_of_item.
Qed.

(** C3: with [r_hessian=True] on the same [energy], the schema also has
    [energy_derv_r_derv_r], of shape [[1,3,3]].  The Hessian mapping is
    [do_derivative] applied to the coordinate-derivative mapping that
    [do_derivative] returned for the base mapping; that second pass
    always returns.  The first derivative of [k] is [r_differentiable]
    exactly when [k] has [r_hessian] and category [OUT]: then the second
    pass emits [k + "_derv_r_derv_r"], of shape [+ [3, 3]]; otherwise it
    emits nothing under that name.  The same holds of the magnetic
    twin [k + "_derv_r_mag"], while [k + "_derv_c_mag"] is never
    [r_differentiable]; no first derivative is [c_differentiable].  So
    for a variable without [r_hessian], or whose category is not [OUT],
    the second pass has no entry under any name derived from any of its
    first derivatives, and the keys of the Hessian mapping are exactly
    the names [hess_names] lists for the variables that are
    [r_differentiable], have [r_hessian] and category [OUT]. *)
Theorem hessian_by_second_pass :
  (exists e m h,
      OutputVariableDef.init "energy" [1] true true true true
        (OutputVariableCategory.value OutputVariableCategory.OUT)
        true false false = OK e
      /\ ModelOutputDef.init (FittingOutputDef.init [e]) = OK m
      /\ ModelOutputDef.keys m
         = ["energy"; "energy_redu"; "energy_derv_c"; "energy_derv_r";
            "energy_derv_c_redu"; "energy_derv_r_derv_r"; "mask"]
      /\ ModelOutputDef.keys_hess_r m = ["energy_derv_r_derv_r"]
      /\ ModelOutputDef.getitem m "energy_derv_r_derv_r" = OK h
      /\ shape h = [1; 3; 3])
  /\ (forall fit m,
         ModelOutputDef.init fit = OK m ->
         exists dc x,
           do_derivative (FittingOutputDef.get_data fit)
           = OK (ModelOutputDef.def_derv_r m, dc)
           /\ do_derivative (ModelOutputDef.def_derv_r m)
              = OK (ModelOutputDef.def_hess_r m, x))
  /\ (forall (d dr dc : PyDict.t VarDef) (k : string) (v : VarDef),
         PyDict.wf d ->
         do_derivative d = OK (dr, dc) ->
         PyDict.get d k = Some v ->
         exists h x,
           do_derivative dr = OK (h, x)
           /\ (r_differentiable v = true ->
               exists w,
                 PyDict.get dr (k ++ "_derv_r") = Some w
                 /\ r_differentiable w
                    = r_hessian v
                      && (category v
                          =? OutputVariableCategory.value
                               OutputVariableCategory.OUT))
           /\ (r_differentiable v = true ->
               r_hessian v = true ->
               category v
               = OutputVariableCategory.value OutputVariableCategory.OUT ->
               exists hh,
                 PyDict.get h (get_hessian_name k) = Some hh
                 /\ shape hh = (shape v ++ [3; 3])%list)
           /\ (r_hessian v = false
               \/ category v
                  <> OutputVariableCategory.value OutputVariableCategory.OUT ->
               PyDict.get h (get_hessian_name k) = None))
  /\ (forall (d dr dc h hc : PyDict.t VarDef) (k : string) (v : VarDef),
         PyDict.wf d ->
         do_derivative d = OK (dr, dc) ->
         do_derivative dr = OK (h, hc) ->
         PyDict.get d k = Some v ->
         (forall w,
             PyDict.get dr (fst (get_deriv_name k)) = Some w ->
             c_differentiable w = false
             /\ r_differentiable w
                = r_hessian v
                  && (category v
                      =? OutputVariableCategory.value
                           OutputVariableCategory.OUT))
         /\ (forall w,
                PyDict.get dr (fst (get_deriv_name_mag k)) = Some w ->
                c_differentiable w = false
                /\ r_differentiable w
                   = r_hessian v
                     && (category v
                         =? OutputVariableCategory.value
                              OutputVariableCategory.OUT))
         /\ (r_differentiable v = true ->
             magnetic v = true ->
             exists w, PyDict.get dr (fst (get_deriv_name_mag k)) = Some w)
         /\ (forall w,
                PyDict.get dr (snd (get_deriv_name_mag k)) = Some w ->
                c_differentiable w = false /\ r_differentiable w = false)
         /\ (r_hessian v = false
             \/ category v
                <> OutputVariableCategory.value OutputVariableCategory.OUT ->
             forall x y,
               In x (first_derivative_names k) ->
               In y (first_derivative_names x) ->
               PyDict.get h y = None)
         /\ (forall y,
                In y (first_derivative_names (snd (get_deriv_name_mag k))) ->
                PyDict.get h y = None))
  /\ (forall (d dr dc h hc : PyDict.t VarDef),
         PyDict.wf d ->
         do_derivative d = OK (dr, dc) ->
         do_derivative dr = OK (h, hc) ->
         PyDict.keys h = flat_map hess_names d
         /\ ((forall k v,
                 In (k, v) d ->
                 r_hessian v = false
                 \/ category v
                    <> OutputVariableCategory.value
                         OutputVariableCategory.OUT) ->
             h = PyDict.empty)).
Proof.
  split; [| split; [| split; [| split ] ] ].
  - do 3 eexists. repeat split; reflexivity.
  - intros fit m Hm.
    apply ModelOutputDef_init_OK in Hm as (_ & Hd & x & Hh). eauto.
  - intros d dr dc k v Hwf Hd Hget.
    destruct (second_pass_returns d dr dc Hd) as (h & x & Hh).
    exists h, x. split; [ exact Hh |].
    pose proof (derv_r_lookup d dr dc Hwf Hd k v Hget) as Hl.
    pose proof (wf_derv_r d dr dc Hd) as Hwf'.
    rewrite hessian_name_twice.
    split; [| split ].
    + intros Hr. rewrite Hr in Hl. eexists. split; [ exact Hl | reflexivity ].
    + intros Hr Hrh Hcat. rewrite Hr in Hl.
      pose proof (derv_r_lookup dr h x Hwf' Hh _ _ Hl) as Hl2.
      unfold derv_r_entry at 1, derv_entry at 1 in Hl2.
      cbn [r_differentiable] in Hl2.
      rewrite Hrh, Hcat in Hl2. cbn [andb Z.eqb] in Hl2.
      eexists. split; [ exact Hl2 |].
      unfold derv_r_entry, derv_entry. cbn [shape].
      now rewrite <- app_assoc.
    + intros Hno. destruct (r_differentiable v) eqn:Hr.
      * pose proof (derv_r_lookup dr h x Hwf' Hh _ _ Hl) as Hl2.
        unfold derv_r_entry at 1, derv_entry at 1 in Hl2.
        cbn [r_differentiable] in Hl2.
        destruct Hno as [Hrh | Hcat].
        -- now rewrite Hrh in Hl2.
        -- apply Z.eqb_neq in Hcat. rewrite Hcat, andb_false_r in Hl2.
           exact Hl2.
      * exact (derv_r_of_absent dr h x _ Hh Hl).
  - intros d dr dc h hc k v Hwf Hd Hh Hget.
    pose proof (wf_derv_r d dr dc Hd) as Hwf'.
    unfold get_deriv_name, get_deriv_name_mag. cbn [fst snd].
    assert (F1 : forall w,
               PyDict.get dr (k ++ "_derv_r") = Some w ->
               c_differentiable w = false
               /\ r_differentiable w
                  = r_hessian v
                    && (category v
                        =? OutputVariableCategory.value
                             OutputVariableCategory.OUT)).
    { intros w Hw.
      destruct (proj1 (first_derivative_flags d dr dc k v w Hwf Hd Hget) Hw)
        as (H1 & _ & H2). auto. }
    assert (F2 : forall w,
               PyDict.get dr (k ++ "_derv_r_mag") = Some w ->
               c_differentiable w = false
               /\ r_differentiable w
                  = r_hessian v
                    && (category v
                        =? OutputVariableCategory.value
                             OutputVariableCategory.OUT)).
    { intros w Hw.
      destruct (proj1 (proj2 (first_derivative_flags d dr dc k v w
                                Hwf Hd Hget)) Hw)
        as (H1 & _ & H2). auto. }
    assert (F3 : forall w,
               PyDict.get dr (k ++ "_derv_c_mag") = Some w ->
               c_differentiable w = false /\ r_differentiable w = false).
    { intros w Hw.
      destruct (proj2 (proj2 (first_derivative_flags d dr dc k v w
                                Hwf Hd Hget)) Hw)
        as (H1 & _ & H2). auto. }
    split; [ exact F1 |]. split; [ exact F2 |].
    split.
    { intros Hr Hm. eexists.
      exact (derv_r_mag_lookup d dr dc k v Hwf Hd Hget Hr Hm). }
    split; [ exact F3 |].
    split.
    + intros Hno x y Hx Hy.
      apply hessian_flag_false in Hno.
      apply (second_pass_absent dr h hc x y Hwf' Hh); [| exact Hy ].
      unfold first_derivative_names, get_deriv_name, get_deriv_name_mag in Hx.
      cbn [fst snd] in Hx.
      destruct Hx as [<- | [<- | [<- | []]]]; intros w Hw.
      * destruct (F1 w Hw) as [H1 H2]. rewrite Hno in H2. auto.
      * destruct (F2 w Hw) as [H1 H2]. rewrite Hno in H2. auto.
      * destruct (F3 w Hw) as [H1 H2]. auto.
    + intros y Hy.
      apply (second_pass_absent dr h hc (k ++ "_derv_c_mag") y Hwf' Hh);
        [| exact Hy ].
      intros w Hw. destruct (F3 w Hw) as [H1 H2]. auto.
  - intros d dr dc h hc Hwf Hd Hh.
    pose proof (hess_keys d dr dc h hc Hwf Hd Hh) as Hk.
    split; [ exact Hk |].
    intros Hno.
    assert (Hnil : flat_map hess_names d = []).
    { clear Hk Hwf Hd Hh. induction d as [| [k v] d IH]; [ reflexivity |].
      cbn [flat_map].
      rewrite IH by (intros k' v' Hin; apply (Hno k' v'); now right).
      rewrite app_nil_r.
      pose proof (hessian_flag_false v (Hno k v (or_introl eq_refl))) as Hf.
      unfold hess_names.
      rewrite <- andb_assoc, Hf, andb_false_r. reflexivity. }
    rewrite Hnil in Hk. unfold PyDict.keys in Hk.
    apply map_eq_nil in Hk. exact Hk.
Qed.

Lemma hessian_by_second_pass_witness :
  (exists h x,
      do_derivative hessian_derv_r = OK (h, x)
      /\ exists hh,
           PyDict.get h "energy_derv_r_derv_r" = Some hh
           /\ shape hh = [1; 3; 3])
  /\ PyDict.get (@PyDict.empty VarDef) "energy_derv_r_mag_derv_r" = None
  /\ PyDict.keys (@PyDict.empty VarDef) = flat_map hess_names spin_data.
Proof.
  split; [| split ].
  - destruct (proj1 (proj2 (proj2 hessian_by_second_pass))
                hessian_data hessian_derv_r hessian_derv_c
                "energy" hessian_energy_def
                ltac:(repeat constructor; intros [])
                eq_refl eq_refl)
      as (h & x & Hh & _ & Hpos & _).
    exists h, x. split; [ exact Hh |].
    apply Hpos; reflexivity.
  - apply (proj1 (proj2 (proj2 (proj2 hessian_by_second_pass)))
             spin_data spin_derv_r spin_derv_c PyDict.empty PyDict.empty
             "energy" spin_energy_def
             ltac:(repeat constructor; intros [])
             eq_refl eq_refl eq_refl)
      with (x := "energy_derv_r_mag").
    + now left.
    + simpl. auto.
    + simpl. auto.
  - apply (proj2 (proj2 (proj2 (proj2 hessian_by_second_pass)))
             spin_data spin_derv_r spin_derv_c PyDict.empty PyDict.empty
             ltac:(repeat constructor; intros [])
             eq_refl eq_refl).
Defined.
